(** * tomopy [dataio/data.py]: rotation-centre search and ring removal

    A shallow embedding of the methods of the class [read] of
    [dataio/data.py]: [optimizeCenter] (with its cost function
    [_costFunc]) and [removeRings], with the properties of them that the
    specification states, and the constructor, [normalize],
    [medianFilter] and [retrievePhase], with properties read off the
    code.

    Conventions.
    - The module is Python 2 ([print] statements): [/] between two
      integers is floor division.
    - A float is idealised as a real number of [R]; rounding is not
      modelled.
    - An n-dimensional numpy array is a nested list in row-major order;
      the projection stack [self.data] is indexed
      [projection][slice][pixel].
    - A Python exception is a [Raise] result.
    - numpy, scipy and pywt are libraries, not code of the module: what
      the module needs of numpy is written out from its documented
      behaviour, and pywt, the reconstruction engine, the Gaussian filter
      and the Nelder-Mead routine are interfaces (records of functions). *)

From Stdlib Require Import Reals Lra Lia ZArith.
From stdpp Require Import base list.

Open Scope R_scope.

(** ** Exceptions *)

Inductive exn : Type :=
| ValueError
| IndexError.

Inductive result (A : Type) : Type :=
| Ok (a : A)
| Raise (e : exn).

Arguments Ok {A} a.
Arguments Raise {A} e.

#[global] Instance result_ret : MRet result := fun A a => Ok a.

#[global] Instance result_bind : MBind result := fun A B f x =>
  match x with
  | Ok a => f a
  | Raise e => Raise e
  end.

(** [for i in idx: s = body(i, s)], stopping at the first exception. *)
Fixpoint for_each {St : Type} (body : nat -> St -> result St) (idx : list nat)
    (s : St) : result St :=
  match idx with
  | [] => Ok s
  | i :: rest => s' ← body i s; for_each body rest s'
  end.

(** [l[i]] of a Python list, with its [IndexError]. *)
Definition getitem {A} (l : list A) (i : nat) : result A :=
  match l !! i with
  | Some x => Ok x
  | None => Raise IndexError
  end.

(** ** Arrays *)

Abbreviation matrix := (list (list R)).
Abbreviation stack3 := (list (list (list R))).

(** [a.shape] of a 2-D and of a 3-D array. *)
Definition shape2 {A} (a : list (list A)) : nat * nat :=
  (length a, length (hd [] a)).

Definition shape3 (d : stack3) : nat * nat * nat :=
  (length d, length (hd [] d), length (hd [] (hd [] d))).

(** A nested list is an array of shape [(r, c)], resp. [(nP, nS, nX)]. *)
Definition rect {A} (r c : nat) (a : list (list A)) : Prop :=
  length a = r /\ Forall (fun row => length row = c) a.

Definition rect3 (nP nS nX : nat) (d : stack3) : Prop :=
  length d = nP /\ Forall (rect nS nX) d.

Definition entry {A} (dflt : A) (a : list (list A)) (i j : nat) : A :=
  nth j (nth i a []) dflt.

(** [a[0:r, 0:c]] *)
Definition crop {A} (r c : nat) (a : list (list A)) : list (list A) :=
  take r (map (take c) a).

(** [data[:, m, :]] *)
Definition getslice (m : nat) (d : stack3) : matrix :=
  map (fun plane => nth m plane []) d.

(** One axis of numpy's broadcasting of a value of extent [n] into a
    target of extent [dim]. *)
Definition broadcastable (n dim : nat) : bool := (n =? dim)%nat || (n =? 1)%nat.

(** Row [p] of the value [v] broadcast to [nX] columns. *)
Definition broadcast_row (v : matrix) (nX p : nat) : list R :=
  let '(r, c) := shape2 v in
  let row := nth (if (r =? 1)%nat then 0%nat else p) v [] in
  if (c =? nX)%nat then row else replicate nX (nth 0 row 0).

(** [data[:, m, :] = v]: in place, with numpy's broadcasting and its
    errors; the shape of [data] is what it was. *)
Definition setslice (m : nat) (v : matrix) (d : stack3) : result stack3 :=
  let '(nP, nS, nX) := shape3 d in
  let '(r, c) := shape2 v in
  if negb (m <? nS)%nat then Raise IndexError
  else if broadcastable r nP && broadcastable c nX
  then Ok (imap (fun p plane => <[m := broadcast_row v nX p]> plane) d)
  else Raise ValueError.

(** ** Complex numbers and the discrete Fourier transform of numpy *)

Definition C : Type := R * R.

Definition Cadd (a b : C) : C := (fst a + fst b, snd a + snd b).
Definition Cmul (a b : C) : C :=
  (fst a * fst b - snd a * snd b, fst a * snd b + snd a * fst b).
Definition Cscal (x : R) (a : C) : C := (x * fst a, x * snd a).
Definition Cexpi (t : R) : C := (cos t, sin t).
Definition Csum (l : list C) : C := foldr Cadd (0, 0) l.
Definition Czero : C := (0, 0).

(** The transform along axis 0 with the sign [sgn] in the exponent. *)
Definition dft_axis0 (sgn : R) (a : list (list C)) : list (list C) :=
  let '(my, mx) := shape2 a in
  map (fun k =>
         map (fun c =>
                Csum (map (fun n =>
                             Cmul (entry Czero a n c)
                                  (Cexpi (sgn * 2 * PI * INR k * INR n / INR my)))
                          (seq 0 my)))
             (seq 0 mx))
      (seq 0 my).

(** [np.fft.fft(a, axis=0)] of a real array. *)
Definition fft0 (a : matrix) : list (list C) :=
  dft_axis0 (-1) (map (map (fun x => (x, 0))) a).

(** [np.fft.ifft(a, axis=0)] *)
Definition ifft0 (a : list (list C)) : list (list C) :=
  map (map (Cscal (/ INR (length a)))) (dft_axis0 1 a).

(** [np.roll(l, s)] for [0 <= s <= len(l)]: element [i] moves to
    [(i + s) mod len(l)]. *)
Definition roll {A} (s : nat) (l : list A) : list A :=
  drop (length l - s) l ++ take (length l - s) l.

(** [np.fft.fftshift(a)] and [np.fft.ifftshift(a)]: without an [axes]
    argument every axis is shifted, by [n // 2] and by [-(n // 2)]. *)
Definition fftshift {A} (a : list (list A)) : list (list A) :=
  let '(my, mx) := shape2 a in
  roll (my / 2) (map (roll (mx / 2)) a).

Definition ifftshift {A} (a : list (list A)) : list (list A) :=
  let '(my, mx) := shape2 a in
  roll (my - my / 2) (map (roll (mx - mx / 2)) a).

(** [np.real] *)
Definition real (a : list (list C)) : matrix := map (map fst) a.

(** [np.tile(v, (n, 1))] and [np.transpose] of a 2-D array. *)
Definition tile {A} (v : list A) (n : nat) : list (list A) := replicate n v.

Definition transpose (a : matrix) : matrix :=
  let '(r, c) := shape2 a in
  map (fun j => map (fun i => entry 0 a i j) (seq 0 r)) (seq 0 c).

(** [np.multiply] of a complex by a real array of the same shape. *)
Definition multiply (a : list (list C)) (b : matrix) : list (list C) :=
  zip_with (zip_with (fun z x => Cscal x z)) a b.

(** The position of the zero frequency in a shifted spectrum of
    length [my]: where [fftshift] moves index 0. *)
Definition zero_freq (my : nat) : nat := (my / 2)%nat.

(** ** The damping of [removeRings] (lines 357-366) *)

(** [(np.arange(-my, my, 2, dtype='float') + 1) / 2] *)
Definition y_hat (my : nat) : list R :=
  map (fun j => (IZR (- Z.of_nat my + 2 * Z.of_nat j) + 1) / 2) (seq 0 my).

(** One entry of [1 - np.exp(-np.power(y_hat, 2) / (2 * np.power(sigma, 2)))] *)
Definition damp_at (sigma y : R) : R := 1 - exp (- (y ^ 2) / (2 * sigma ^ 2)).

Definition damp (sigma : R) (my : nat) : list R := map (damp_at sigma) (y_hat my).

(** The body of the second inner loop, from [cV[m]] to its new value. *)
Definition damp_band (sigma : R) (band : matrix) : matrix :=
  let fcV := fftshift (fft0 band) in
  let '(my, mx) := shape2 fcV in
  let fcV' := multiply fcV (transpose (tile (damp sigma my) mx)) in
  real (ifft0 (ifftshift fcV')).

(** ** pywt *)

(** What [removeRings] uses of pywt for the wavelet named [wname]: the
    length of its decomposition filter and the two 2-D transforms
    [pywt.dwt2(im, wname)] and [pywt.idwt2((cA, (cH, cV, cD)), wname)],
    which raise on arguments they do not accept. *)
Record Wavelet : Type := {
  dec_len : nat;
  dwt2 : matrix -> result (matrix * (matrix * matrix * matrix));
  idwt2 : matrix * (matrix * matrix * matrix) -> result matrix
}.

(** [pywt.dwt_coeff_len] in the default (symmetric) mode, and the length
    of what the inverse transform returns for coefficients of length [n]. *)
Definition dwt_coeff_len (data_len filter_len : nat) : nat :=
  (data_len + filter_len - 1) / 2.

Definition idwt_len (coeff_len filter_len : nat) : nat :=
  2 * coeff_len + 2 - filter_len.

(** [pywt.dwt_max_level]: the number of decomposition levels an axis of
    length [data_len] supports, [floor(log2(data_len / (filter_len - 1)))],
    and the least of it over the two axes of a slice. *)
Definition dwt_max_level (data_len filter_len : nat) : nat :=
  Nat.log2 (data_len / (filter_len - 1)).

Definition slice_max_level (w : Wavelet) (d : stack3) : nat :=
  let '(nP, _, nX) := shape3 d in
  Nat.min (dwt_max_level nP (dec_len w)) (dwt_max_level nX (dec_len w)).

(** The extent of an axis of length [n] after [k] decompositions. *)
Definition level_len (filter_len n k : nat) : nat :=
  Nat.iter k (fun n' => dwt_coeff_len n' filter_len) n.

(** The shapes pywt documents for its 2-D transforms in the default
    mode, for a wavelet whose filter has at least two taps: a non-empty
    image of shape [(r, c)] decomposes into four sub-bands of shape
    [(dwt_coeff_len r, dwt_coeff_len c)], and four sub-bands of one
    non-empty shape [(r, c)] recompose into an image of shape
    [(idwt_len r, idwt_len c)]. *)
Record pywt_shapes (w : Wavelet) : Prop := {
  dec_len_ge : (2 <= dec_len w)%nat;
  dwt2_shape : forall (a : matrix) (r c : nat),
    rect r c a -> (0 < r)%nat -> (0 < c)%nat ->
    exists cA cH cV cD,
      dwt2 w a = Ok (cA, (cH, cV, cD)) /\
      let r' := dwt_coeff_len r (dec_len w) in
      let c' := dwt_coeff_len c (dec_len w) in
      rect r' c' cA /\ rect r' c' cH /\ rect r' c' cV /\ rect r' c' cD;
  idwt2_shape : forall (cA cH cV cD : matrix) (r c : nat),
    rect r c cA -> rect r c cH -> rect r c cV -> rect r c cD ->
    (0 < r)%nat -> (0 < c)%nat ->
    exists a,
      idwt2 w (cA, (cH, cV, cD)) = Ok a /\
      rect (idwt_len r (dec_len w)) (idwt_len c (dec_len w)) a
}.

(** ** [removeRings] (lines 342-374) *)

(** The local variables of the body of the outer loop. The three inner
    loops are written with the loop variable [m] of the outer one: a
    Python [for] assigns its variable at every iteration and leaves it
    at the last value when it ends. *)
Record locals : Type := Locals {
  loc_m : nat;
  loc_im : matrix;
  loc_cH : list matrix;
  loc_cV : list matrix;
  loc_cD : list matrix;
  loc_nim : matrix
}.

(** Lines 348-352, one iteration. *)
Definition decompose_body (w : Wavelet) (i : nat) (st : locals) : result locals :=
  '(a, (h, v, d)) ← dwt2 w (loc_im st);
  Ok {| loc_m := i; loc_im := a;
        loc_cH := loc_cH st ++ [h];
        loc_cV := loc_cV st ++ [v];
        loc_cD := loc_cD st ++ [d];
        loc_nim := loc_nim st |}.

(** Lines 355-366, one iteration. *)
Definition damp_body (sigma : R) (i : nat) (st : locals) : result locals :=
  band ← getitem (loc_cV st) i;
  Ok {| loc_m := i; loc_im := loc_im st;
        loc_cH := loc_cH st;
        loc_cV := <[i := damp_band sigma band]> (loc_cV st);
        loc_cD := loc_cD st;
        loc_nim := loc_nim st |}.

(** Lines 370-372, one iteration. *)
Definition reconstruct_body (w : Wavelet) (i : nat) (st : locals) : result locals :=
  h ← getitem (loc_cH st) i;
  let nim1 := crop (fst (shape2 h)) (snd (shape2 h)) (loc_nim st) in
  v ← getitem (loc_cV st) i;
  d ← getitem (loc_cD st) i;
  nim2 ← idwt2 w (nim1, (h, v, d));
  Ok {| loc_m := i; loc_im := loc_im st;
        loc_cH := loc_cH st;
        loc_cV := loc_cV st;
        loc_cD := loc_cD st;
        loc_nim := nim2 |}.

(** Lines 344-373: the locals when line 374 is reached, in the iteration
    of the outer loop that starts with [m = m0]. *)
Definition removeRings_locals (w : Wavelet) (level : nat) (sigma : R)
    (data : stack3) (m0 : nat) : result locals :=
  let st0 := {| loc_m := m0; loc_im := getslice m0 data;
                loc_cH := []; loc_cV := []; loc_cD := []; loc_nim := [] |} in
  st1 ← for_each (decompose_body w) (seq 0 level) st0;
  st2 ← for_each (damp_body sigma) (seq 0 level) st1;
  st3 ← for_each (reconstruct_body w) (reverse (seq 0 level))
         {| loc_m := loc_m st2; loc_im := loc_im st2;
            loc_cH := loc_cH st2; loc_cV := loc_cV st2; loc_cD := loc_cD st2;
            loc_nim := loc_im st2 |};
  let '(nP, _, nX) := shape3 data in
  Ok {| loc_m := loc_m st3; loc_im := loc_im st3;
        loc_cH := loc_cH st3; loc_cV := loc_cV st3; loc_cD := loc_cD st3;
        loc_nim := crop nP nX (loc_nim st3) |}.

(** One iteration of the outer loop: lines 344-374. *)
Definition removeRings_slice (w : Wavelet) (level : nat) (sigma : R)
    (m0 : nat) (data : stack3) : result stack3 :=
  st ← removeRings_locals w level sigma data m0;
  setslice (loc_m st) (loc_nim st) data.

(** [removeRings(self, level, wname, sigma)] on [self.data]. *)
Definition removeRings (w : Wavelet) (level : nat) (sigma : R) (data : stack3)
  : result stack3 :=
  for_each (removeRings_slice w level sigma) (seq 0 (snd (fst (shape3 data)))) data.

(** What the specification asks of one iteration: slice [m0] damped and
    written back to index [m0]. *)
Definition removeRings_slice_spec (w : Wavelet) (level : nat) (sigma : R)
    (m0 : nat) (data : stack3) : result stack3 :=
  st ← removeRings_locals w level sigma data m0;
  setslice m0 (loc_nim st) data.

(** ** The Haar wavelet, ['haar'] of pywt *)

Definition haar_block (a : matrix) (f : R -> R -> R -> R -> R) : matrix :=
  let '(r, c) := shape2 a in
  let up (i n : nat) := Nat.min i (n - 1) in
  map (fun i : nat =>
         map (fun j : nat =>
                let i0 := (2 * i)%nat in
                let i1 := up (2 * i + 1)%nat r in
                let j0 := (2 * j)%nat in
                let j1 := up (2 * j + 1)%nat c in
                f (entry 0 a i0 j0) (entry 0 a i0 j1)
                  (entry 0 a i1 j0) (entry 0 a i1 j1))
             (seq 0 (dwt_coeff_len c 2)))
      (seq 0 (dwt_coeff_len r 2)).

(** Symmetric padding repeats the last sample of an odd axis; empty input
    is refused. *)
Definition haar_dwt2 (a : matrix) : result (matrix * (matrix * matrix * matrix)) :=
  let '(r, c) := shape2 a in
  if (r =? 0)%nat || (c =? 0)%nat then Raise ValueError
  else Ok (haar_block a (fun p q s t => (p + q + s + t) / 2),
           (haar_block a (fun p q s t => (p + q - s - t) / 2),
            haar_block a (fun p q s t => (p - q + s - t) / 2),
            haar_block a (fun p q s t => (p - q - s + t) / 2))).

Definition shape_eqb (s t : nat * nat) : bool :=
  (fst s =? fst t)%nat && (snd s =? snd t)%nat.

Definition haar_idwt2 (coeffs : matrix * (matrix * matrix * matrix)) : result matrix :=
  let '(a, (h, v, d)) := coeffs in
  let '(r, c) := shape2 a in
  if shape_eqb (shape2 h) (r, c) && shape_eqb (shape2 v) (r, c)
     && shape_eqb (shape2 d) (r, c)
  then Ok (map (fun y =>
                  map (fun x =>
                         let i := (y / 2)%nat in
                         let j := (x / 2)%nat in
                         let sy := if Nat.even y then 1 else -1 in
                         let sx := if Nat.even x then 1 else -1 in
                         (entry 0 a i j + sy * entry 0 h i j
                          + sx * entry 0 v i j + sy * sx * entry 0 d i j) / 2)
                      (seq 0 (idwt_len c 2)))
               (seq 0 (idwt_len r 2)))
  else Raise ValueError.

Definition haar : Wavelet :=
  {| dec_len := 2; dwt2 := haar_dwt2; idwt2 := haar_idwt2 |}.

(** ** numpy reductions and [np.histogram] *)

(** [np.min(a)] and [np.max(a)] of the elements of an array; an empty
    array has no minimum. *)
Definition np_min (a : list R) : result R :=
  match a with
  | [] => Raise ValueError
  | x :: rest => Ok (foldl Rmin x rest)
  end.

Definition np_max (a : list R) : result R :=
  match a with
  | [] => Raise ValueError
  | x :: rest => Ok (foldl Rmax x rest)
  end.

(** [np.dot] of two 1-D arrays and [np.log2]. *)
Definition dot (a b : list R) : R := foldr Rplus 0 (zip_with Rmult a b).

Definition log2 (x : R) : R := ln x / ln 2.

(** Edge [k] of [bins] equal-width bins on [[lo, hi]]. *)
Definition bin_edge (lo hi : R) (bins k : nat) : R :=
  lo + INR k * (hi - lo) / INR bins.

(** Bin [i] is half-open, [edge i <= x < edge (i + 1)], but for the last
    one, which is closed. *)
Definition in_bin (lo hi : R) (bins i : nat) (x : R) : bool :=
  if Rle_dec (bin_edge lo hi bins i) x
  then if (S i =? bins)%nat
       then (if Rle_dec x (bin_edge lo hi bins (S i)) then true else false)
       else (if Rlt_dec x (bin_edge lo hi bins (S i)) then true else false)
  else false.

Definition in_range (lo hi : R) (x : R) : bool :=
  if Rle_dec lo x then (if Rle_dec x hi then true else false) else false.

Fixpoint count_if (p : R -> bool) (a : list R) : nat :=
  match a with
  | [] => 0
  | x :: rest => (if p x then 1 else 0) + count_if p rest
  end.

(** The bounds numpy bins over: a range of no width is widened by a half
    on each side. *)
Definition hist_bounds (lo hi : R) : R * R :=
  if Req_dec_T lo hi then (lo - 1 / 2, hi + 1 / 2) else (lo, hi).

(** The counts of [np.histogram(a, bins=bins, range=[lo, hi])], [a]
    flattened. A range with [hi < lo] is an error; a value outside the
    range is in no bin. *)
Definition np_histogram (a : list R) (bins : nat) (lo hi : R) : result (list nat) :=
  if Rlt_dec hi lo then Raise ValueError
  else
    let '(lo', hi') := hist_bounds lo hi in
    Ok (map (fun i => count_if (in_bin lo' hi' bins i) a) (seq 0 bins)).

(** ** The stack object, the reconstruction engine and scipy *)

(** The attributes of an instance of the class [read] (lines 60-103). *)
Record read : Type := {
  data : stack3;
  white : stack3;
  dark : stack3;
  center : R;
  angles : option (list R)
}.

Definition set_center (c : R) (self : read) : read :=
  {| data := data self; white := white self; dark := dark self;
     center := c; angles := angles self |}.

(** Modelled from the spec: the reconstruction engine [tomoRecon] is a
    module of the repository whose source is not at hand. The
    specification (2 and 6) has it produce the reconstructed image of one
    slice from the stack object, whose centre attribute it reads, and the
    slice index, deterministically and without writing to its input; like
    any call it may raise. *)
Record Engine : Type := {
  run : read -> Z -> result matrix
}.

(** What is used of scipy: [ndimage.filters.gaussian_filter(a, sigma)],
    and the Nelder-Mead method of [optimize.minimize] as a strategy that,
    from the tolerance, the start and the evaluations so far (latest
    first), proposes the next point to evaluate or stops, and names the
    point it returns as [res.x]; [maxfev] bounds the evaluations after the
    first. *)
Record Scipy : Type := {
  gaussian_filter : matrix -> R -> matrix;
  propose : R -> R -> list (R * R) -> option R;
  res_x : R -> R -> list (R * R) -> R;
  maxfev : nat
}.

(** What happens during a call of [optimizeCenter], in order. *)
Inductive event : Type :=
| Reconstruct (c : R) (sliceNo : Z)
| Evaluate (c : R).

(** The state [optimizeCenter] works on: the stack object [self], the
    image held by the engine object [recon] ([recon.data]), and the
    events so far. *)
Record ostate : Type := {
  st_self : read;
  st_recon : matrix;
  st_trace : list event
}.

Definition M (A : Type) : Type := ostate -> result A * ostate.

Definition retM {A} (a : A) : M A := fun s => (Ok a, s).

Definition bindM {A B} (c : M A) (f : A -> M B) : M B := fun s =>
  match c s with
  | (Ok a, s') => f a s'
  | (Raise e, s') => (Raise e, s')
  end.

Definition liftM {A} (r : result A) : M A := fun s => (r, s).

Notation "x <~ c1 ;; c2" := (bindM c1 (fun x => c2))
  (at level 100, c1 at next level, right associativity).

(** [recon.run(self, sliceNo=sliceNo, printInfo=False)] *)
Definition recon_run (E : Engine) (sliceNo : Z) : M unit := fun s =>
  let tr := st_trace s ++ [Reconstruct (center (st_self s)) sliceNo] in
  match run E (st_self s) sliceNo with
  | Ok img => (Ok tt, {| st_self := st_self s; st_recon := img; st_trace := tr |})
  | Raise e => (Raise e, {| st_self := st_self s; st_recon := st_recon s; st_trace := tr |})
  end.

(** [reconInput.center = center] *)
Definition assign_center (c : R) : M unit := fun s =>
  (Ok tt, {| st_self := set_center c (st_self s); st_recon := st_recon s;
             st_trace := st_trace s ++ [Evaluate c] |}).

Definition get_recon : M matrix := fun s => (Ok (st_recon s), s).

(** Lines 264-269 on the image [img] of [recon.data]. *)
Definition entropy_cost (Sc : Scipy) (img : matrix) (histMin histMax filterSigma : R)
  : result R :=
  histr ← np_histogram (concat (gaussian_filter Sc img filterSigma)) 64 histMin histMax;
  let histr' := map (fun n => INR n / INR (length (concat img)) + 1 / 10 ^ 12) histr in
  Ok (- dot histr' (map log2 histr')).

(** [_costFunc(center, reconInput, recon, sliceNo, histMin, histMax, filterSigma)] *)
Definition _costFunc (E : Engine) (Sc : Scipy) (c : R) (sliceNo : Z)
    (histMin histMax filterSigma : R) : M R :=
  _ <~ assign_center c ;;
  _ <~ recon_run E sliceNo ;;
  img <~ get_recon ;;
  liftM (entropy_cost Sc img histMin histMax filterSigma).

(** [minimize(f, x0, method='Nelder-Mead', tol=tol)]: the start is
    evaluated first, then what the strategy proposes, until it stops or
    the evaluations run out. *)
Fixpoint minimize_loop (Sc : Scipy) (f : R -> M R) (tol x0 : R) (fuel : nat)
    (evals : list (R * R)) : M R :=
  match fuel with
  | O => retM (res_x Sc tol x0 evals)
  | S fuel' =>
      match propose Sc tol x0 evals with
      | None => retM (res_x Sc tol x0 evals)
      | Some c => y <~ f c ;; minimize_loop Sc f tol x0 fuel' ((c, y) :: evals)
      end
  end.

Definition minimize (Sc : Scipy) (f : R -> M R) (tol x0 : R) : M R :=
  y0 <~ f x0 ;; minimize_loop Sc f tol x0 (maxfev Sc) [(x0, y0)].

(** A Python value given for [inCenter]: what [np.isscalar] accepts, or
    an array. *)
Inductive pyval : Type :=
| Scalar (x : R)
| Array (xs : list R).

(** Lines 220-223. *)
Definition check_sliceNo (numSlices : nat) (sliceNo : option Z) : result Z :=
  match sliceNo with
  | None => Ok (Z.of_nat numSlices / 2)%Z
  | Some n => if (Z.of_nat numSlices <? n)%Z then Raise ValueError else Ok n
  end.

(** Lines 225-228. *)
Definition check_inCenter (numPixels : nat) (inCenter : option pyval) : result R :=
  match inCenter with
  | None => Ok (IZR (Z.of_nat numPixels / 2))
  | Some (Scalar x) => Ok x
  | Some (Array _) => Raise ValueError
  end.

(** Lines 233-238 and 240-245. *)
Definition default_histMin (histMin : option R) (img : matrix) : result R :=
  match histMin with
  | Some h => Ok h
  | None =>
      h ← np_min (concat img);
      Ok (if Rlt_dec h 0 then 2 * h
          else if Rge_dec h 0 then (1 / 2) * h else h)
  end.

Definition default_histMax (histMax : option R) (img : matrix) : result R :=
  match histMax with
  | Some h => Ok h
  | None =>
      h ← np_max (concat img);
      Ok (if Rlt_dec h 0 then (1 / 2) * h
          else if Rge_dec h 0 then 2 * h else h)
  end.

(** Lines 217-245: the checks, the reconstruction of line 232 and the
    bounds of the histogram; the slice, the start and the bounds the
    search is run with. *)
Definition optimizeCenter_setup (E : Engine)
    (sliceNo : option Z) (inCenter : option pyval) (histMin histMax : option R)
  : M (Z * R * R * R) := fun s =>
  let '(_, numSlices, numPixels) := shape3 (data (st_self s)) in
  (sliceNo' <~ liftM (check_sliceNo numSlices sliceNo) ;;
   inCenter' <~ liftM (check_inCenter numPixels inCenter) ;;
   _ <~ recon_run E sliceNo' ;;
   probe <~ get_recon ;;
   histMin' <~ liftM (default_histMin histMin probe) ;;
   probe' <~ get_recon ;;
   histMax' <~ liftM (default_histMax histMax probe') ;;
   retM (sliceNo', inCenter', histMin', histMax')) s.

(** [optimizeCenter(self, sliceNo, inCenter, histMin, histMax, tol,
    filterSigma)]: the value returned or the exception raised, and the
    state reached. *)
Definition optimizeCenter_body (E : Engine) (Sc : Scipy)
    (sliceNo : option Z) (inCenter : option pyval) (histMin histMax : option R)
    (tol filterSigma : R) : M R :=
  args <~ optimizeCenter_setup E sliceNo inCenter histMin histMax ;;
  let '(sliceNo', inCenter', histMin', histMax') := args in
  minimize Sc (fun c => _costFunc E Sc c sliceNo' histMin' histMax' filterSigma)
           tol inCenter'.

(** The state at the call: the engine object is yet to be made. *)
Definition initial_state (self : read) : ostate :=
  {| st_self := self; st_recon := []; st_trace := [] |}.

Definition optimizeCenter (E : Engine) (Sc : Scipy) (self : read)
    (sliceNo : option Z) (inCenter : option pyval) (histMin histMax : option R)
    (tol filterSigma : R) : result R * ostate :=
  optimizeCenter_body E Sc sliceNo inCenter histMin histMax tol filterSigma
    (initial_state self).

(** ** Predicates and inputs of the proofs *)

(** The detail sub-bands of the levels [0 .. k-1] of a slice of [nP] by
    [nX], finest first, have the sizes pywt gives them. *)
Definition pyramid_ok (w : Wavelet) (nP nX : nat) (k : nat) (l : list matrix) : Prop :=
  length l = k /\
  forall j b, l !! j = Some b ->
    rect (level_len (dec_len w) nP (S j)) (level_len (dec_len w) nX (S j)) b.

Definition b2n (b : bool) : nat := if b then 1%nat else 0%nat.

(** The number of values a histogram has counted. *)
Definition hist_total (h : list nat) : nat := foldr Nat.add 0%nat h.

(** The bins [0 .. k-1] hold together what lies between the first edge
    and edge [k]; the right end is closed when [k] is the last edge. *)
Definition in_prefix (lo hi : R) (bins k : nat) (x : R) : bool :=
  if Rle_dec (bin_edge lo hi bins 0) x
  then if (k =? bins)%nat
       then (if Rle_dec x (bin_edge lo hi bins k) then true else false)
       else (if Rlt_dec x (bin_edge lo hi bins k) then true else false)
  else false.

(** The fields of the stack object other than [center]. *)
Definition same_arrays (self self' : read) : Prop :=
  data self' = data self /\ white self' = white self /\
  dark self' = dark self /\ angles self' = angles self.

(** The last thing done was to evaluate the cost at [c]. *)
Definition evaluated_last (s : ostate) : Prop :=
  exists tr c sliceNo,
    st_trace s = tr ++ [Evaluate c; Reconstruct c sliceNo] /\ center (st_self s) = c.

(** The state after the reconstruction of line 232. *)
Definition probed (s : ostate) (sliceNo : Z) (img : matrix) : ostate :=
  {| st_self := st_self s; st_recon := img;
     st_trace := st_trace s ++ [Reconstruct (center (st_self s)) sliceNo] |}.

(** The bound the search is run with: the one given, or the one derived
    from the extreme of the image. *)
Definition bound_or (given : option R) (derived : R) : R :=
  match given with Some h => h | None => derived end.

(** Stacks, indexed [projection][slice][pixel]. *)
Definition stack_2x2x2 : stack3 := [[[1; 2]; [3; 4]]; [[5; 6]; [7; 8]]].

Definition ones_3x4x4 : stack3 := replicate 3 (replicate 4 (replicate 4 1)).

(** Slice 0 is blank and slice 1 carries a stripe in its first pixel. *)
Definition ring_stack : stack3 := [[[0; 0]; [1; 0]]; [[0; 0]; [1; 0]]].

(** One projection and one slice, five pixels wide. *)
Definition stack_1x1x5 : stack3 := [[[1; 2; 3; 4; 5]]].

Definition stack_at (c : R) : read :=
  {| data := stack_2x2x2; white := []; dark := []; center := c; angles := None |}.

(** An engine that returns the centre it is given as a one-pixel image, a
    filter that changes nothing, and a search that evaluates the start and
    one more point and answers the start. *)
Definition echo_engine : Engine := {| run := fun self _ => Ok [[center self]] |}.

Definition two_point_search : Scipy :=
  {| gaussian_filter := fun img _ => img;
     propose := fun _ x0 evals => match evals with [_] => Some (x0 + 1) | _ => None end;
     res_x := fun _ x0 _ => x0;
     maxfev := 4 |}.

(** ** The constructor (lines 15-103) *)

(** [read.__init__]: the three arrays are what [hdf5.read] returns for
    the groups [exchange/data], [exchange/data_white] and
    [exchange/data_dark] of the input file, converted to float; the
    rotation centre is the number of pixels divided by 2, both integers. *)
Definition __init__ (data_read white_read dark_read : stack3) : read :=
  {| data := data_read; white := white_read; dark := dark_read;
     center := IZR (Z.of_nat (snd (shape3 data_read)) / 2);
     angles := None |}.

(** The events of evaluating the cost of slice [sliceNo] at the
    candidates [cs], in order. *)
Definition evals_trace (sliceNo : Z) (cs : list R) : list event :=
  concat (map (fun c => [Evaluate c; Reconstruct c sliceNo]) cs).

(** ** [normalize] (lines 106-114) *)

(** The arrays of this part have no extent of 0 but, possibly, the first:
    a nested list holds the later extents in its elements. A division by
    0, which numpy answers with an infinity or a NaN and a warning, has no
    counterpart among the reals: what is proved of a quotient is proved
    where the divisor is not 0. *)

Definition set_data (d : stack3) (self : read) : read :=
  {| data := d; white := white self; dark := dark self;
     center := center self; angles := angles self |}.

(** The array of shape [(r, c)] whose entry [(i, j)] is [f i j]. *)
Definition tabulate2 (r c : nat) (f : nat -> nat -> R) : matrix :=
  map (fun i => map (f i) (seq 0 c)) (seq 0 r).

(** [np.mean(w, axis=0)], for at least one image in [w]. *)
Definition np_mean0 (w : stack3) : matrix :=
  let '(nW, nS, nX) := shape3 w in
  tabulate2 nS nX (fun s x =>
    foldr Rplus 0 (map (fun img => entry 0 img s x) w) / INR nW).

(** The extent two extents broadcast to, if they do. *)
Definition broadcast_dim (n1 n2 : nat) : option nat :=
  if (n1 =? n2)%nat then Some n1
  else if (n1 =? 1)%nat then Some n2
  else if (n2 =? 1)%nat then Some n1
  else None.

(** Entry [(i, j)] of [a] broadcast from shape [(r, c)]. *)
Definition broadcast_entry (a : matrix) (i j : nat) : R :=
  let '(r, c) := shape2 a in
  entry 0 a (if (r =? 1)%nat then 0%nat else i) (if (c =? 1)%nat then 0%nat else j).

(** [np.divide(a, b)] of two 2-D arrays. *)
Definition np_divide (a b : matrix) : result matrix :=
  let '(r1, c1) := shape2 a in
  let '(r2, c2) := shape2 b in
  match broadcast_dim r1 r2, broadcast_dim c1 c2 with
  | Some r, Some c =>
      Ok (tabulate2 r c (fun i j => broadcast_entry a i j / broadcast_entry b i j))
  | _, _ => Raise ValueError
  end.

(** [data[m, :, :] = v], in place. *)
Definition setplane (m : nat) (v : matrix) (d : stack3) : result stack3 :=
  let '(nP, nS, nX) := shape3 d in
  let '(r, c) := shape2 v in
  if negb (m <? nP)%nat then Raise IndexError
  else if broadcastable r nS && broadcastable c nX
  then Ok (<[m := tabulate2 nS nX (broadcast_entry v)]> d)
  else Raise ValueError.

(** Line 111. *)
Definition normalize_body (avgWhite : matrix) (m : nat) (d : stack3) : result stack3 :=
  plane ← getitem d m;
  q ← np_divide plane avgWhite;
  setplane m q d.

(** [data[data > cutoff] = cutoff] *)
Definition clip (cutoff : R) (x : R) : R := if Rgt_dec x cutoff then cutoff else x.

Definition apply_cutoff (cutoff : option R) (d : stack3) : stack3 :=
  match cutoff with
  | None => d
  | Some c => map (map (map (clip c))) d
  end.

(** [normalize(self, cutoff)]: the object after the call. *)
Definition normalize (cutoff : option R) (self : read) : result read :=
  let avgWhite := np_mean0 (white self) in
  d ← for_each (normalize_body avgWhite) (seq 0 (fst (fst (shape3 (data self)))))
       (data self);
  Ok (set_data (apply_cutoff cutoff d) self).

(** Entry [(m, s, x)] of a stack. *)
Definition entry3 (d : stack3) (m s x : nat) : R := entry 0 (nth m d []) s x.

(** The mean over the images of [w] at [(s, x)]. *)
Definition white_mean (w : stack3) (s x : nat) : R :=
  foldr Rplus 0 (map (fun img => entry 0 img s x) w) / INR (length w).

(** A plane divided by the average white image. *)
Definition flat_field (w : stack3) (nS nX : nat) (plane : matrix) : matrix :=
  tabulate2 nS nX (fun s x => entry 0 plane s x / white_mean w s x).

(** Two white images over the stack of two projections. *)
Definition white_2x2x2 : stack3 := [[[2; 2]; [2; 2]]; [[4; 4]; [4; 4]]].

Definition stack_with_white : read :=
  {| data := stack_2x2x2; white := white_2x2x2; dark := []; center := 1;
     angles := None |}.

(** Two white images of three slices. *)
Definition white_2x3x2 : stack3 := [[[2; 2]; [2; 2]; [2; 2]]; [[4; 4]; [4; 4]; [4; 4]]].

(** ** More exceptions *)

(** The exceptions of the other methods: those above, and the two that
    scipy and the division of Python numbers add. *)
Inductive pyexn : Type :=
| Builtin (e : exn)
| RuntimeError
| ZeroDivisionError.

Inductive outcome (A : Type) : Type :=
| Done (a : A)
| Thrown (e : pyexn).

Arguments Done {A} a.
Arguments Thrown {A} e.

#[global] Instance outcome_ret : MRet outcome := fun A a => Done a.

#[global] Instance outcome_bind : MBind outcome := fun A B f x =>
  match x with
  | Done a => f a
  | Thrown e => Thrown e
  end.

Definition lift_result {A} (r : result A) : outcome A :=
  match r with
  | Ok a => Done a
  | Raise e => Thrown (Builtin e)
  end.

Fixpoint for_each_o {St : Type} (body : nat -> St -> outcome St) (idx : list nat)
    (s : St) : outcome St :=
  match idx with
  | [] => Done s
  | i :: rest => s' ← body i s; for_each_o body rest s'
  end.

(** ** [medianFilter] (lines 117-157) *)

(** An array of rank 0, 1 or 2. *)
Inductive ndarray : Type :=
| Arr0 (x : R)
| Arr1 (v : list R)
| Arr2 (a : matrix).

(** [np.squeeze(a)] of a 2-D array: the extents that are 1 go. *)
Definition squeeze (a : matrix) : ndarray :=
  let '(r, c) := shape2 a in
  if (r =? 1)%nat
  then (if (c =? 1)%nat then Arr0 (entry 0 a 0 0) else Arr1 (hd [] a))
  else if (c =? 1)%nat then Arr1 (map (hd 0) a)
  else Arr2 a.

(** An array as numpy broadcasts it to rank 2: the extents it lacks are
    1 and come first. *)
Definition as_2d (v : ndarray) : matrix :=
  match v with
  | Arr0 x => [[x]]
  | Arr1 l => [l]
  | Arr2 a => a
  end.

(** [data[m, :, :]] and [data[:, :, m]] *)
Definition getplane (m : nat) (d : stack3) : matrix := nth m d [].

Definition getcol (m : nat) (d : stack3) : matrix :=
  map (map (fun row => nth m row 0)) d.

(** [data[:, :, m] = v], in place. *)
Definition setcol (m : nat) (v : matrix) (d : stack3) : result stack3 :=
  let '(nP, nS, nX) := shape3 d in
  let '(r, c) := shape2 v in
  if negb (m <? nX)%nat then Raise IndexError
  else if broadcastable r nP && broadcastable c nS
  then Ok (imap (fun p plane =>
                   imap (fun s row => <[m := broadcast_entry v p s]> row) plane) d)
  else Raise ValueError.

(** [ndimage.filters.median_filter(a, size=size)] for the [size] of the
    call: scipy's, taken as it is. *)
Record Ndimage : Type := {
  median_filter : ndarray -> outcome ndarray
}.

(** The axis filtered along: the one given, unless an extent is 1
    (lines 134-139). *)
Definition medianFilter_axis (shape : nat * nat * nat) (axis : Z) : Z :=
  let '(nP, nS, nX) := shape in
  if (nP =? 1)%nat then 0%Z
  else if (nS =? 1)%nat then 1%Z
  else if (nX =? 1)%nat then 2%Z
  else axis.

(** One iteration of the loops of lines 142-155. *)
Definition medianFilter_body (F : Ndimage)
    (get : nat -> stack3 -> matrix) (set : nat -> matrix -> stack3 -> result stack3)
    (m : nat) (d : stack3) : outcome stack3 :=
  v ← median_filter F (squeeze (get m d));
  lift_result (set m (as_2d v) d).

(** [medianFilter(self, axis, size)] on [self.data]; [axis] is a Python
    int, for which [axis is 0] holds when it is 0. *)
Definition medianFilter (F : Ndimage) (axis : Z) (d : stack3) : outcome stack3 :=
  let '(nP, nS, nX) := shape3 d in
  let axis' := medianFilter_axis (nP, nS, nX) axis in
  if (axis' =? 0)%Z
  then for_each_o (medianFilter_body F getplane setplane) (seq 0 nP) d
  else if (axis' =? 1)%Z
  then for_each_o (medianFilter_body F getslice setslice) (seq 0 nS) d
  else if (axis' =? 2)%Z
  then for_each_o (medianFilter_body F getcol setcol) (seq 0 nX) d
  else Thrown (Builtin ValueError).

(** scipy's filters return an array of the shape of their input; said
    here of the 2-D arrays with no extent below 2. *)
Definition keeps_shape (F : Ndimage) : Prop :=
  forall (a : matrix) (r c : nat),
    rect r c a -> (2 <= r)%nat -> (2 <= c)%nat ->
    exists b, median_filter F (Arr2 a) = Done (Arr2 b) /\ rect r c b.

(** A filter that adds 1 to every value of a 2-D array and rejects the
    arrays of lower rank. *)
Definition add_one_filter : Ndimage :=
  {| median_filter := fun v =>
       match v with
       | Arr2 a => Done (Arr2 (map (map (fun x => x + 1)) a))
       | _ => Thrown RuntimeError
       end |}.

(** ** [retrievePhase] (lines 270-319) *)

(** The module [constants] of the repository, whose source is not at
    hand: the three numbers used of it, as parameters. *)
Record Constants : Type := {
  const_PI : R;
  PLANCK_CONSTANT : R;
  SPEED_OF_LIGHT : R
}.

(** [tomoRecon.fftw2d(a, direction=...)], a function of the repository
    whose source is not at hand: taken as it is, exceptions included. *)
Inductive direction : Type := forward | backward.

Record Fftw : Type := {
  fftw2d : list (list C) -> direction -> outcome (list (list C))
}.

(** [x / y] of two Python numbers, one of them a float. *)
Definition pydiv (x y : R) : outcome R :=
  if Req_dec_T y 0 then Thrown ZeroDivisionError else Done (x / y).

(** [np.arange(-(n-1)*0.5, n*0.5)]: [n] values one apart, centred on 0. *)
Definition arange_centered (n : nat) : list R :=
  map (fun k => - ((INR n - 1) * (1 / 2)) + INR k) (seq 0 n).

Definition to_complex (a : matrix) : list (list C) := map (map (fun x => (x, 0))) a.

Definition broadcast_entryC (a : list (list C)) (i j : nat) : C :=
  let '(r, c) := shape2 a in
  entry Czero a (if (r =? 1)%nat then 0%nat else i) (if (c =? 1)%nat then 0%nat else j).

(** [np.multiply(h, f)] of a real and a complex 2-D array. *)
Definition np_multiply (h : matrix) (f : list (list C)) : result (list (list C)) :=
  let '(r1, c1) := shape2 h in
  let '(r2, c2) := shape2 f in
  match broadcast_dim r1 r2, broadcast_dim c1 c2 with
  | Some r, Some c =>
      Ok (map (fun i => map (fun j => Cscal (broadcast_entry h i j) (broadcast_entryC f i j))
                            (seq 0 c)) (seq 0 r))
  | _, _ => Raise ValueError
  end.

(** [1 - a] *)
Definition one_minus (a : matrix) : matrix := map (map (fun x => 1 - x)) a.

(** Lines 314-318, one iteration. *)
Definition retrievePhase_body (K : Constants) (W : Fftw) (wavelength dist alpha : R)
    (w2 : matrix) (m : nat) (d : stack3) : outcome stack3 :=
  f ← fftw2d W (to_complex (getplane m d)) forward;
  let fftData := fftshift f in
  let H := map (map (fun w => 1 / (2 * const_PI K * wavelength * dist * w + alpha))) w2 in
  prod ← lift_result (np_multiply H fftData);
  b ← fftw2d W (ifftshift prod) backward;
  lift_result (setplane m (one_minus (real b)) d).

(** [retrievePhase(self, pixelSize, dist, energy, alpha)], the arguments
    being Python numbers: the object after the call. *)
Definition retrievePhase (K : Constants) (W : Fftw) (pixelSize dist energy alpha : R)
    (self : read) : outcome read :=
  let '(numProjections, numSlices, numPixels) := shape3 (data self) in
  wavelength ← pydiv (2 * const_PI K * PLANCK_CONSTANT K * SPEED_OF_LIGHT K) energy;
  kx ← pydiv (2 * const_PI K) ((INR numSlices - 1) * pixelSize);
  let indx := map (Rmult kx) (arange_centered numSlices) in
  ky ← pydiv (2 * const_PI K) ((INR numPixels - 1) * pixelSize);
  let indy := map (Rmult ky) (arange_centered numPixels) in
  let w2 := map (fun v => map (fun u => u * u + v * v) indy) indx in
  let data1 := map one_minus (data self) in
  d ← for_each_o (retrievePhase_body K W wavelength dist alpha w2)
       (seq 0 numProjections) data1;
  Done (set_data d self).

(** The transform returns, in either direction, an array of the shape of
    its input, for the arrays of shape [(nS, nX)]. *)
Definition transform_keeps_shape (W : Fftw) (nS nX : nat) : Prop :=
  forall (a : list (list C)) (dir : direction),
    rect nS nX a -> exists b, fftw2d W a dir = Done b /\ rect nS nX b.

(** [out] is [1 - real (backward (forward (1 - plane)))]. *)
Definition transformed_plane (W : Fftw) (plane out : matrix) : Prop :=
  exists f b,
    fftw2d W (to_complex (one_minus plane)) forward = Done f /\
    fftw2d W f backward = Done b /\
    out = one_minus (real b).

(** A transform that changes nothing. *)
Definition identity_fftw : Fftw := {| fftw2d := fun a _ => Done a |}.

Definition unit_constants : Constants :=
  {| const_PI := PI; PLANCK_CONSTANT := 1; SPEED_OF_LIGHT := 1 |}.

(** * The damping profile *)


Lemma roll_zero_freq {A} (l : list A) :
  (0 < length l)%nat -> roll (zero_freq (length l)) l !! zero_freq (length l) = l !! 0%nat.
Proof.
  intros Hl. unfold roll, zero_freq.
  assert (Hh : (length l / 2 < length l)%nat) by (apply Nat.div_lt; lia).
  rewrite lookup_app_r; rewrite length_drop; [|lia].
  rewrite lookup_take_lt by lia.
  f_equal. lia.
Qed.

Lemma nth_map_lt {A B} (f : A -> B) (l : list A) (j : nat) (d : B) (d' : A) :
  (j < length l)%nat -> nth j (map f l) d = f (nth j l d').
Proof.
  revert j. induction l as [|x l IH]; intros [|j] Hj; simpl in *; try lia; auto with lia.
Qed.

Lemma y_hat_nth (my j : nat) :
  (j < my)%nat ->
  nth j (y_hat my) 0 = (IZR (- Z.of_nat my + 2 * Z.of_nat j) + 1) / 2.
Proof.
  intros Hj. unfold y_hat.
  rewrite (nth_map_lt _ _ _ _ 0%nat) by (rewrite length_seq; lia).
  rewrite seq_nth by lia. reflexivity.
Qed.

Lemma y_hat_length (my : nat) : length (y_hat my) = my.
Proof. unfold y_hat. now rewrite length_map, length_seq. Qed.

Lemma damp_nth (sigma : R) (my j : nat) :
  (j < my)%nat -> nth j (damp sigma my) 0 = damp_at sigma (nth j (y_hat my) 0).
Proof.
  intros Hj. unfold damp. apply nth_map_lt. now rewrite y_hat_length.
Qed.

Lemma damp_at_0 (sigma : R) : damp_at sigma 0 = 0.
Proof.
  unfold damp_at. replace (- 0 ^ 2 / (2 * sigma ^ 2)) with 0 by (unfold Rdiv; ring).
  rewrite exp_0. ring.
Qed.

Lemma y_hat_odd (my j : nat) :
  Nat.odd my = true -> (j < my)%nat ->
  nth j (y_hat my) 0 = IZR (Z.of_nat j - Z.of_nat (zero_freq my)).
Proof.
  intros Ho Hj. rewrite y_hat_nth by done.
  apply Nat.odd_spec in Ho as [q ->]. unfold zero_freq.
  replace ((2 * q + 1) / 2)%nat with q by (apply (Nat.div_unique _ 2 q 1); lia).
  replace (- Z.of_nat (2 * q + 1) + 2 * Z.of_nat j)%Z
    with (2 * (Z.of_nat j - Z.of_nat q) - 1)%Z by lia.
  rewrite minus_IZR, mult_IZR. lra.
Qed.

Lemma y_hat_even (my j : nat) :
  Nat.even my = true -> (j < my)%nat ->
  nth j (y_hat my) 0 = IZR (Z.of_nat j - Z.of_nat (zero_freq my)) + 1 / 2.
Proof.
  intros He Hj. rewrite y_hat_nth by done.
  apply Nat.even_spec in He as [q ->]. unfold zero_freq.
  replace ((2 * q) / 2)%nat with q by (apply (Nat.div_unique _ 2 q 0); lia).
  replace (- Z.of_nat (2 * q) + 2 * Z.of_nat j)%Z
    with (2 * (Z.of_nat j - Z.of_nat q))%Z by lia.
  rewrite mult_IZR. lra.
Qed.

Lemma zero_freq_lt (my : nat) : (0 < my)%nat -> (zero_freq my < my)%nat.
Proof. intros H. unfold zero_freq. apply Nat.div_lt; lia. Qed.

Lemma damp_at_quarter (y : R) : damp_at 2 y = 1 - exp (- (y * y) / 8).
Proof. unfold damp_at. do 2 f_equal. field. Qed.

Ltac eval_indices :=
  repeat match goal with
         | |- context [IZR ?z] =>
             lazymatch z with
             | Z0 => fail
             | Zpos _ => fail
             | Zneg _ => fail
             | _ => let v := eval vm_compute in z in change z with v
             end
         end.

(** C5: vertical-detail sub-bands of height 4 and of height 3, with
    [sigma = 2]. For height 4 the profile is taken at the frequencies
    -3/2, -1/2, 1/2, 3/2, while the rows of the shifted spectrum are the
    frequencies -2, -1, 0, 1: the row of the zero frequency, at index 2,
    is multiplied by [1 - exp (-1/32)], which is not 0; the rows of the
    frequencies -1 and 0 get the same factor, and those of -1 and 1
    different ones. For height 3 the profile is taken at -1, 0, 1 and the
    zero frequency is multiplied by 0. *)
Theorem damp_zero_freq_height_4 :
  y_hat 4 = [- (3 / 2); - (1 / 2); 1 / 2; 3 / 2] /\
  zero_freq 4 = 2%nat /\
  nth (zero_freq 4) (damp 2 4) 0 = 1 - exp (- (1 / 32)) /\
  nth (zero_freq 4) (damp 2 4) 0 <> 0 /\
  nth 1 (damp 2 4) 0 = nth 2 (damp 2 4) 0 /\
  nth 1 (damp 2 4) 0 <> nth 3 (damp 2 4) 0 /\
  y_hat 3 = [- 1; 0; 1] /\
  zero_freq 3 = 1%nat /\
  nth (zero_freq 3) (damp 2 3) 0 = 0.
Proof.
  assert (H4 : y_hat 4 = [- (3 / 2); - (1 / 2); 1 / 2; 3 / 2]).
  { unfold y_hat. cbn [seq map]. eval_indices. repeat (f_equal; try lra). }
  assert (H3 : y_hat 3 = [- 1; 0; 1]).
  { unfold y_hat. cbn [seq map]. eval_indices. repeat (f_equal; try lra). }
  assert (E1 : exp (- (1 / 32)) < 1).
  { pose proof (exp_increasing (- (1 / 32)) 0) as H. rewrite exp_0 in H. apply H. lra. }
  assert (E2 : exp (- (9 / 32)) < exp (- (1 / 32))) by (apply exp_increasing; lra).
  unfold damp. rewrite H4, H3. unfold zero_freq.
  change (4 / 2)%nat with 2%nat. change (3 / 2)%nat with 1%nat.
  cbn [map nth]. rewrite !damp_at_quarter.
  replace (- (1 / 2 * (1 / 2)) / 8) with (- (1 / 32)) by lra.
  replace (- (- (1 / 2) * - (1 / 2)) / 8) with (- (1 / 32)) by lra.
  replace (- (3 / 2 * (3 / 2)) / 8) with (- (9 / 32)) by lra.
  replace (- (0 * 0) / 8) with 0 by lra. rewrite exp_0.
  split_and!; try reflexivity; lra.
Qed.

(** * Shapes of the array operations *)

(** ** Shapes *)

Lemma length_roll {A} (s : nat) (l : list A) : length (roll s l) = length l.
Proof. unfold roll. rewrite length_app, length_drop, length_take. lia. Qed.

Lemma Forall_roll {A} (P : A -> Prop) (s : nat) (l : list A) :
  Forall P l -> Forall P (roll s l).
Proof.
  intros H. unfold roll. apply Forall_app. split.
  - now apply Forall_drop.
  - now apply Forall_take.
Qed.

Section Shapes.
Context {A : Type}.
Implicit Types (a : list (list A)) (r c : nat).

Lemma rect_shape2 a r c : rect r c a -> (0 < r)%nat -> shape2 a = (r, c).
Proof.
  intros [Hr Hc] Hpos. unfold shape2. destruct a as [|row a]; simpl in *; [lia|].
  inversion Hc; subst. reflexivity.
Qed.

Lemma rect_tabulate {B} (f : nat -> nat -> B) r c :
  rect r c (map (fun i => map (f i) (seq 0 c)) (seq 0 r)).
Proof.
  split.
  - now rewrite length_map, length_seq.
  - apply Forall_forall. intros row Hin. apply list_elem_of_In, in_map_iff in Hin.
    destruct Hin as (i & <- & _). now rewrite length_map, length_seq.
Qed.

Lemma rect_map {B} (f : A -> B) a r c : rect r c a -> rect r c (map (map f) a).
Proof.
  intros [Hr Hc]. split.
  - now rewrite length_map.
  - apply Forall_forall. intros row Hin. apply list_elem_of_In, in_map_iff in Hin.
    destruct Hin as (x & <- & Hx). rewrite length_map.
    rewrite Forall_forall in Hc. apply Hc. now apply list_elem_of_In.
Qed.

Lemma rect_roll2 (s t : nat) a r c : rect r c a -> rect r c (roll s (map (roll t) a)).
Proof.
  intros [Hr Hc]. split.
  - now rewrite length_roll, length_map.
  - apply Forall_roll. apply Forall_forall. intros row Hin.
    apply list_elem_of_In, in_map_iff in Hin. destruct Hin as (x & <- & Hx).
    rewrite length_roll. rewrite Forall_forall in Hc. apply Hc.
    now apply list_elem_of_In.
Qed.

Lemma rect_fftshift a r c : rect r c a -> rect r c (fftshift a).
Proof. intros H. unfold fftshift, shape2. now apply rect_roll2. Qed.

Lemma rect_ifftshift a r c : rect r c a -> rect r c (ifftshift a).
Proof. intros H. unfold ifftshift, shape2. now apply rect_roll2. Qed.

Lemma rect_crop a r c r' c' :
  rect r c a -> (r' <= r)%nat -> (c' <= c)%nat -> rect r' c' (crop r' c' a).
Proof.
  intros [Hr Hc] Hr' Hc'. unfold crop. split.
  - rewrite length_take, length_map. lia.
  - apply Forall_take. apply Forall_forall. intros row Hin.
    apply list_elem_of_In, in_map_iff in Hin. destruct Hin as (x & <- & Hx).
    rewrite length_take. rewrite Forall_forall in Hc.
    rewrite (Hc x) by now apply list_elem_of_In. lia.
Qed.

Lemma crop_id a r c : rect r c a -> crop r c a = a.
Proof.
  intros [Hr Hc]. unfold crop.
  rewrite take_ge by (rewrite length_map; lia).
  rewrite <- (map_id a) at 2. apply map_ext_in. intros row Hin.
  rewrite Forall_forall in Hc. apply take_ge. rewrite (Hc row); [lia|].
  now apply list_elem_of_In.
Qed.
End Shapes.

Lemma rect_dft_axis0 (sgn : R) (a : list (list C)) r c :
  rect r c a -> (0 < r)%nat -> rect r c (dft_axis0 sgn a).
Proof.
  intros H Hr. unfold dft_axis0. rewrite (rect_shape2 a r c) by done.
  apply (rect_tabulate (fun k c0 => Csum (map (fun n => Cmul (entry Czero a n c0)
           (Cexpi (sgn * 2 * PI * INR k * INR n / INR r))) (seq 0 r)))).
Qed.

Lemma rect_transpose_tile (v : list R) (n : nat) :
  (0 < n)%nat -> rect (length v) n (transpose (tile v n)).
Proof.
  intros Hn. unfold transpose.
  assert (Hs : shape2 (tile v n) = (n, length v)).
  { unfold shape2, tile. rewrite length_replicate. destruct n; [lia|]. reflexivity. }
  rewrite Hs. apply (rect_tabulate (fun j i => entry 0 (tile v n) i j)).
Qed.

Lemma rect_multiply (a : list (list C)) (b : matrix) r c :
  rect r c a -> rect r c b -> rect r c (multiply a b).
Proof.
  intros [Har Hac] [Hbr Hbc]. unfold multiply. split.
  - rewrite length_zip_with. lia.
  - apply Forall_forall. intros row Hin.
    apply list_elem_of_lookup in Hin as [i Hi].
    apply lookup_zip_with_Some in Hi as (x & y & -> & Hx & Hy).
    rewrite length_zip_with.
    rewrite Forall_forall in Hac. rewrite Forall_forall in Hbc.
    rewrite (Hac x), (Hbc y); [lia | |]; eapply list_elem_of_lookup_2; eauto.
Qed.

Lemma rect_damp_band (sigma : R) (band : matrix) r c :
  rect r c band -> (0 < r)%nat -> (0 < c)%nat -> rect r c (damp_band sigma band).
Proof.
  intros H Hr Hc. unfold damp_band.
  assert (Hf : rect r c (fftshift (fft0 band))).
  { apply rect_fftshift. unfold fft0. apply rect_dft_axis0; [|done]. now apply rect_map. }
  rewrite (rect_shape2 _ r c Hf Hr).
  unfold real. apply rect_map. unfold ifft0.
  apply rect_map. apply rect_dft_axis0; [|done]. apply rect_ifftshift.
  apply rect_multiply; [done|].
  pose proof (rect_transpose_tile (damp sigma r) c Hc) as Ht.
  unfold damp at 1 in Ht. rewrite length_map in Ht. unfold y_hat in Ht.
  now rewrite length_map, length_seq in Ht.
Qed.

Lemma bind_Ok {A B} (f : A -> result B) (a : A) : (Ok a ≫= f) = f a.
Proof. reflexivity. Qed.

Lemma bind_Raise {A B} (f : A -> result B) (e : exn) : (Raise e ≫= f) = Raise e.
Proof. reflexivity. Qed.

Lemma for_each_app {St} (body : nat -> St -> result St) (idx1 idx2 : list nat) (s : St) :
  for_each body (idx1 ++ idx2) s
  = (s' ← for_each body idx1 s; for_each body idx2 s').
Proof.
  revert s. induction idx1 as [|i idx1 IH]; intros s; simpl; [reflexivity|].
  destruct (body i s) as [s'|e]; simpl; [apply IH | reflexivity].
Qed.

Lemma for_each_snoc {St} (body : nat -> St -> result St) (k : nat) (s : St) :
  for_each body (seq 0 (S k)) s = (s' ← for_each body (seq 0 k) s; body k s').
Proof.
  rewrite seq_S, for_each_app. simpl.
  destruct (for_each body (seq 0 k) s) as [s'|e]; simpl; [|reflexivity].
  destruct (body k s'); reflexivity.
Qed.

Lemma for_each_rev_cons {St} (body : nat -> St -> result St) (k : nat) (s : St) :
  for_each body (reverse (seq 0 (S k))) s
  = (s' ← body k s; for_each body (reverse (seq 0 k)) s').
Proof. rewrite seq_S, reverse_app. reflexivity. Qed.

Lemma dwt_coeff_len_pos (n L : nat) : (0 < n)%nat -> (2 <= L)%nat -> (0 < dwt_coeff_len n L)%nat.
Proof.
  intros Hn HL. unfold dwt_coeff_len.
  apply (Nat.div_str_pos (n + L - 1) 2). lia.
Qed.

Lemma idwt_len_coeff_len (n L : nat) : (n <= idwt_len (dwt_coeff_len n L) L)%nat.
Proof.
  unfold idwt_len, dwt_coeff_len.
  pose proof (Nat.div_mod_eq (n + L - 1) 2).
  pose proof (Nat.mod_upper_bound (n + L - 1) 2). lia.
Qed.

Lemma level_len_S (L n k : nat) : level_len L n (S k) = dwt_coeff_len (level_len L n k) L.
Proof. reflexivity. Qed.

Lemma level_len_pos (L n k : nat) : (0 < n)%nat -> (2 <= L)%nat -> (0 < level_len L n k)%nat.
Proof.
  intros Hn HL. induction k as [|k IH]; [exact Hn|].
  rewrite level_len_S. now apply dwt_coeff_len_pos.
Qed.

Section Pyramid.
Variable w : Wavelet.
Hypothesis laws : pywt_shapes w.
Variables (nP nX : nat).
Hypothesis nP_pos : (0 < nP)%nat.
Hypothesis nX_pos : (0 < nX)%nat.

Let L := dec_len w.

Local Abbreviation pyramid_ok := (pyramid_ok w nP nX).

Lemma pyramid_ok_nil : pyramid_ok 0 [].
Proof. split; [reflexivity|]. intros j b Hj. now rewrite lookup_nil in Hj. Qed.

Lemma pyramid_ok_snoc k l b :
  pyramid_ok k l -> rect (level_len L nP (S k)) (level_len L nX (S k)) b ->
  pyramid_ok (S k) (l ++ [b]).
Proof.
  intros [Hlen Hl] Hb. split.
  - rewrite length_app. simpl. lia.
  - intros j b' Hj. apply lookup_app_Some in Hj as [Hj | [Hge Hj]].
    + now apply Hl.
    + apply list_lookup_singleton_Some in Hj as [Hj <-].
      replace j with k by lia. exact Hb.
Qed.

Lemma pyramid_ok_insert k l i b :
  pyramid_ok k l -> rect (level_len L nP (S i)) (level_len L nX (S i)) b ->
  pyramid_ok k (<[i := b]> l).
Proof.
  intros [Hlen Hl] Hb. split.
  - now rewrite length_insert.
  - intros j b' Hj. destruct (decide (i = j)) as [<- | Hne].
    + apply list_lookup_insert_Some in Hj as [(_ & <- & _) | (Hne & _)]; [exact Hb | done].
    + rewrite list_lookup_insert_ne in Hj by done. now apply Hl.
Qed.

Lemma pyramid_ok_lookup k l i :
  pyramid_ok k l -> (i < k)%nat ->
  exists b, getitem l i = Ok b /\ rect (level_len L nP (S i)) (level_len L nX (S i)) b.
Proof.
  intros [Hlen Hl] Hi. unfold getitem.
  destruct (l !! i) as [b|] eqn:Hb.
  - exists b. split; [reflexivity|]. now apply Hl.
  - apply lookup_ge_None in Hb. lia.
Qed.

Lemma decompose_ok (k : nat) (st0 : locals) :
  rect nP nX (loc_im st0) ->
  loc_cH st0 = [] -> loc_cV st0 = [] -> loc_cD st0 = [] ->
  exists st,
    for_each (decompose_body w) (seq 0 k) st0 = Ok st /\
    rect (level_len L nP k) (level_len L nX k) (loc_im st) /\
    pyramid_ok k (loc_cH st) /\ pyramid_ok k (loc_cV st) /\ pyramid_ok k (loc_cD st).
Proof.
  intros Him HH HV HD. induction k as [|k IH].
  - exists st0. rewrite HH, HV, HD. split_and!; try apply pyramid_ok_nil; done.
  - destruct IH as (st & Hrun & Hr & HcH & HcV & HcD).
    rewrite for_each_snoc, Hrun. simpl.
    destruct (dwt2_shape w laws (loc_im st) _ _ Hr) as (cA & h & v & d & Hd & HA & Hh & Hv & Hdd).
    { now apply level_len_pos; [|apply laws]. }
    { now apply level_len_pos; [|apply laws]. }
    unfold decompose_body. rewrite Hd. simpl.
    eexists. split; [reflexivity|]. simpl.
    split_and!; try (apply pyramid_ok_snoc; assumption); apply HA.
Qed.

Lemma damp_loop_ok (sigma : R) (level k : nat) (st : locals) :
  (k <= level)%nat -> pyramid_ok level (loc_cV st) ->
  exists st',
    for_each (damp_body sigma) (seq 0 k) st = Ok st' /\
    loc_im st' = loc_im st /\ loc_cH st' = loc_cH st /\ loc_cD st' = loc_cD st /\
    pyramid_ok level (loc_cV st').
Proof.
  intros Hk HV. induction k as [|k IH].
  - exists st. split_and!; done.
  - destruct IH as (st' & Hrun & Him & HH & HD & HV'); [lia|].
    rewrite for_each_snoc, Hrun. simpl.
    destruct (pyramid_ok_lookup level (loc_cV st') k HV') as (b & Hb & Hrb); [lia|].
    unfold damp_body. rewrite Hb. simpl.
    eexists. split; [reflexivity|]. simpl. split_and!; try done.
    apply pyramid_ok_insert; [done|].
    apply rect_damp_band; [done| |]; now apply level_len_pos; [|apply laws].
Qed.

Lemma reconstruct_body_ok (level k : nat) (st : locals) :
  (k < level)%nat ->
  pyramid_ok level (loc_cH st) -> pyramid_ok level (loc_cV st) ->
  pyramid_ok level (loc_cD st) ->
  (exists r c, rect r c (loc_nim st) /\
               (level_len L nP (S k) <= r)%nat /\ (level_len L nX (S k) <= c)%nat) ->
  exists st',
    reconstruct_body w k st = Ok st' /\
    loc_cH st' = loc_cH st /\ loc_cV st' = loc_cV st /\ loc_cD st' = loc_cD st /\
    loc_m st' = k /\
    exists r c, rect r c (loc_nim st') /\
                (level_len L nP k <= r)%nat /\ (level_len L nX k <= c)%nat.
Proof.
  intros Hk HH HV HD (r & c & Hrc & Hr & Hc).
  destruct (pyramid_ok_lookup level _ k HH) as (h & Hh & Hrh); [lia|].
  destruct (pyramid_ok_lookup level _ k HV) as (v & Hv & Hrv); [lia|].
  destruct (pyramid_ok_lookup level _ k HD) as (d & Hd & Hrd); [lia|].
  assert (HpP : (0 < level_len L nP (S k))%nat) by (now apply level_len_pos; [|apply laws]).
  assert (HpX : (0 < level_len L nX (S k))%nat) by (now apply level_len_pos; [|apply laws]).
  pose proof (rect_crop _ _ _ _ _ Hrc Hr Hc) as Hcrop.
  destruct (idwt2_shape w laws _ _ _ _ _ _ Hcrop Hrh Hrv Hrd HpP HpX) as (a & Ha & Hra).
  unfold reconstruct_body. rewrite Hh, bind_Ok, Hv, bind_Ok, Hd, bind_Ok.
  rewrite (rect_shape2 h _ _ Hrh HpP). cbn [fst snd]. rewrite Ha, bind_Ok.
  eexists. split; [reflexivity|]. simpl. split_and!; try done.
  eexists _, _. split; [exact Hra|]. rewrite !level_len_S.
  split; apply idwt_len_coeff_len.
Qed.

Lemma reconstruct_ok (level k : nat) (st : locals) :
  (k <= level)%nat ->
  pyramid_ok level (loc_cH st) -> pyramid_ok level (loc_cV st) ->
  pyramid_ok level (loc_cD st) ->
  (exists r c, rect r c (loc_nim st) /\
               (level_len L nP k <= r)%nat /\ (level_len L nX k <= c)%nat) ->
  exists st',
    for_each (reconstruct_body w) (reverse (seq 0 k)) st = Ok st' /\
    (exists r c, rect r c (loc_nim st') /\ (nP <= r)%nat /\ (nX <= c)%nat).
Proof.
  revert st. induction k as [|k IH]; intros st Hk HH HV HD Hnim.
  - exists st. split; [reflexivity|]. exact Hnim.
  - rewrite for_each_rev_cons.
    destruct (reconstruct_body_ok level k st) as (st1 & -> & E1 & E2 & E3 & _ & Hn1);
      try done.
    simpl. apply IH; [lia | | | | done]; congruence.
Qed.
End Pyramid.

(** ** Slices of the stack *)

Lemma nth_insert_ne {A} (l : list A) (i j : nat) (x d : A) :
  i <> j -> nth j (<[i := x]> l) d = nth j l d.
Proof. intros H. now rewrite !nth_lookup, list_lookup_insert_ne. Qed.

Lemma nth_insert_eq {A} (l : list A) (i : nat) (x d : A) :
  (i < length l)%nat -> nth i (<[i := x]> l) d = x.
Proof. intros H. now rewrite nth_lookup, list_lookup_insert_eq. Qed.

Lemma insert_nth_id {A} (l : list A) (i : nat) (d : A) :
  (i < length l)%nat -> <[i := nth i l d]> l = l.
Proof.
  intros H. apply list_insert_id. rewrite nth_lookup.
  destruct (l !! i) eqn:E; [reflexivity|]. apply lookup_ge_None in E. lia.
Qed.

Lemma imap_id_ext {A} (f : nat -> A -> A) (l : list A) :
  (forall i x, l !! i = Some x -> f i x = x) -> imap f l = l.
Proof.
  revert f. induction l as [|y l IH]; intros f H; simpl; [reflexivity|].
  f_equal.
  - now apply (H 0%nat).
  - apply IH. intros i x Hi. now apply (H (S i)).
Qed.

Lemma getslice_imap (m : nat) (f : nat -> list (list R) -> list (list R)) (d : stack3) :
  getslice m (imap f d) = imap (fun p plane => nth m (f p plane) []) d.
Proof.
  revert f. induction d as [|plane d IH]; intros f; simpl; [reflexivity|].
  f_equal. apply IH.
Qed.

Lemma getslice_imap_const (m : nat) (d : stack3) :
  getslice m d = imap (fun _ plane => nth m plane []) d.
Proof. induction d as [|plane d IH]; simpl; [reflexivity|]. f_equal. apply IH. Qed.

Lemma getslice_length (m : nat) (d : stack3) : length (getslice m d) = length d.
Proof. unfold getslice. apply length_map. Qed.


Lemma rect_getslice (nP nS nX m : nat) (d : stack3) :
  rect3 nP nS nX d -> (m < nS)%nat -> rect nP nX (getslice m d).
Proof.
  intros [HP Hd] Hm. split.
  - now rewrite getslice_length.
  - unfold getslice. apply Forall_forall. intros row Hin.
    apply list_elem_of_In, in_map_iff in Hin. destruct Hin as (plane & <- & Hp).
    rewrite Forall_forall in Hd. destruct (Hd plane) as [Hlen Hrows].
    { now apply list_elem_of_In. }
    rewrite Forall_forall in Hrows. apply Hrows.
    apply list_elem_of_In, nth_In. lia.
Qed.

Lemma shape3_rect (nP nS nX : nat) (d : stack3) :
  rect3 nP nS nX d -> (0 < nP)%nat -> (0 < nS)%nat -> shape3 d = (nP, nS, nX).
Proof.
  intros [HP Hd] HpP HpS. unfold shape3.
  destruct d as [|plane d]; simpl in *; [lia|].
  inversion Hd as [|? ? [Hlen Hrows] _]; subst.
  destruct plane as [|row plane]; simpl in *; [lia|].
  inversion Hrows; subst. reflexivity.
Qed.

Lemma shape3_slices (nP nS nX : nat) (d : stack3) :
  rect3 nP nS nX d -> (0 < nP)%nat -> snd (fst (shape3 d)) = nS.
Proof.
  intros [HP Hd] HpP. unfold shape3.
  destruct d as [|plane d]; simpl in *; [lia|].
  inversion Hd as [|? ? [Hlen Hrows] _]; subst. reflexivity.
Qed.

Lemma broadcast_row_exact (v : matrix) (nP nX p : nat) :
  rect nP nX v -> (p < nP)%nat -> broadcast_row v nX p = nth p v [].
Proof.
  intros Hv Hp. unfold broadcast_row. rewrite (rect_shape2 v nP nX) by (done || lia).
  rewrite Nat.eqb_refl. destruct (nP =? 1)%nat eqn:E; [|reflexivity].
  apply Nat.eqb_eq in E. now replace p with 0%nat by lia.
Qed.

(** Writing an array of the shape of a slice: no error, and the stack
    with that slice replaced. *)
Lemma setslice_exact (nP nS nX m : nat) (v : matrix) (d : stack3) :
  rect3 nP nS nX d -> (0 < nP)%nat -> (m < nS)%nat -> rect nP nX v ->
  setslice m v d = Ok (imap (fun p plane => <[m := nth p v []]> plane) d).
Proof.
  intros Hd HpP Hm Hv. unfold setslice.
  rewrite (shape3_rect nP nS nX) by (done || lia).
  rewrite (rect_shape2 v nP nX) by done.
  apply Nat.ltb_lt in Hm as Hm'. rewrite Hm'. simpl.
  unfold broadcastable. rewrite !Nat.eqb_refl. simpl. f_equal.
  apply imap_ext. intros p plane Hp. simpl. f_equal.
  apply (broadcast_row_exact v nP nX); [done|].
  apply lookup_lt_Some in Hp. destruct Hd as [<- _]. exact Hp.
Qed.

Lemma rect3_imap_insert (nP nS nX m : nat) (v : matrix) (d : stack3) :
  rect3 nP nS nX d -> rect nP nX v ->
  rect3 nP nS nX (imap (fun p plane => <[m := nth p v []]> plane) d).
Proof.
  intros [HP Hd] [Hvr Hvc]. split.
  - now rewrite length_imap.
  - apply Forall_forall. intros plane' Hin.
    apply list_elem_of_lookup in Hin as [p Hp].
    rewrite list_lookup_imap in Hp.
    destruct (d !! p) as [plane|] eqn:E; simpl in Hp; [|done].
    injection Hp as <-.
    rewrite Forall_forall in Hd. destruct (Hd plane) as [Hlen Hrows].
    { eapply list_elem_of_lookup_2; eauto. }
    split; [now rewrite length_insert|].
    apply Forall_insert; [exact Hrows|].
    rewrite Forall_forall in Hvc. apply Hvc.
    apply list_elem_of_In, nth_In. apply lookup_lt_Some in E. lia.
Qed.

Lemma getslice_imap_insert_ne (m s : nat) (g : nat -> list R) (d : stack3) :
  s <> m -> getslice s (imap (fun p plane => <[m := g p]> plane) d) = getslice s d.
Proof.
  intros Hne. rewrite getslice_imap, (getslice_imap_const s d).
  apply imap_ext. intros p plane _. simpl. apply nth_insert_ne. congruence.
Qed.

Lemma getslice_imap_insert_eq (nP nS nX m : nat) (v : matrix) (d : stack3) :
  rect3 nP nS nX d -> length v = nP -> (m < nS)%nat ->
  getslice m (imap (fun p plane => <[m := nth p v []]> plane) d) = v.
Proof.
  intros [HP Hd] Hv Hm. rewrite getslice_imap.
  apply (list_eq_same_length _ _ nP); [done | now rewrite length_imap |].
  intros p x y Hp Hx Hy. rewrite list_lookup_imap in Hx.
  destruct (d !! p) as [plane|] eqn:E; simpl in Hx; [|done].
  injection Hx as <-.
  rewrite Forall_forall in Hd. destruct (Hd plane) as [Hlen _].
  { eapply list_elem_of_lookup_2; eauto. }
  rewrite nth_insert_eq by lia.
  rewrite nth_lookup, Hy. reflexivity.
Qed.

Lemma imap_insert_getslice (nP nS nX m : nat) (d : stack3) :
  rect3 nP nS nX d -> (m < nS)%nat ->
  imap (fun p plane => <[m := nth p (getslice m d) []]> plane) d = d.
Proof.
  intros [HP Hd] Hm. apply imap_id_ext. intros p plane Hp.
  assert (Hrow : nth p (getslice m d) [] = nth m plane []).
  { unfold getslice. rewrite nth_lookup.
    change (map (fun plane0 => nth m plane0 []) d)
      with ((fun plane0 : list (list R) => nth m plane0 []) <$> d).
    now rewrite list_lookup_fmap, Hp. }
  rewrite Hrow. apply insert_nth_id.
  rewrite Forall_forall in Hd. destruct (Hd plane) as [Hlen _]; [|lia].
  eapply list_elem_of_lookup_2; eauto.
Qed.

(** ** The loop variable *)

Lemma for_each_last {St} (body : nat -> St -> result St) (var : St -> nat)
    (idx : list nat) (i : nat) (s s' : St) :
  (forall j t t', body j t = Ok t' -> var t' = j) ->
  for_each body (idx ++ [i]) s = Ok s' -> var s' = i.
Proof.
  intros Hbody. rewrite for_each_app.
  destruct (for_each body idx s) as [s1|e]; simpl; [|done].
  destruct (body i s1) as [s2|e] eqn:E; simpl; [|done].
  intros [= <-]. eapply Hbody, E.
Qed.

Lemma reconstruct_body_m (w : Wavelet) (j : nat) (t t' : locals) :
  reconstruct_body w j t = Ok t' -> loc_m t' = j.
Proof.
  unfold reconstruct_body.
  destruct (getitem (loc_cH t) j); simpl; [|done].
  destruct (getitem (loc_cV t) j); simpl; [|done].
  destruct (getitem (loc_cD t) j); simpl; [|done].
  destruct (idwt2 w _); simpl; [|done].
  now intros [= <-].
Qed.

Lemma removeRings_locals_m (w : Wavelet) (level : nat) (sigma : R) (data : stack3)
    (m0 : nat) (st : locals) :
  removeRings_locals w level sigma data m0 = Ok st ->
  loc_m st = match level with O => m0 | S _ => 0%nat end.
Proof.
  unfold removeRings_locals. destruct level as [|l].
  - simpl. destruct (shape3 data) as [[nP nS] nX]. now intros [= <-].
  - destruct (for_each (decompose_body w) _ _) as [st1|e]; [|done]. rewrite bind_Ok.
    destruct (for_each (damp_body sigma) _ _) as [st2|e]; [|done]. rewrite bind_Ok.
    destruct (for_each (reconstruct_body w) _ _) as [st3|e] eqn:E3; [|done].
    rewrite bind_Ok. destruct (shape3 data) as [[nP nS] nX]. intros [= <-]. simpl.
    change (seq 0 (S l)) with (0%nat :: seq 1 l) in E3. rewrite reverse_cons in E3.
    eapply (for_each_last _ loc_m), E3. apply reconstruct_body_m.
Qed.

(** The write of line 374 goes to the index the loop variable holds
    then: [m0] when no inner loop has run, else [0]. *)
Lemma removeRings_slice_index (w : Wavelet) (level : nat) (sigma : R) (m0 : nat)
    (data : stack3) :
  removeRings_slice w level sigma m0 data
  = (st ← removeRings_locals w level sigma data m0;
     setslice (match level with O => m0 | S _ => 0%nat end) (loc_nim st) data).
Proof.
  unfold removeRings_slice.
  destruct (removeRings_locals w level sigma data m0) as [st|e] eqn:E; [|reflexivity].
  rewrite !bind_Ok. now rewrite (removeRings_locals_m _ _ _ _ _ _ E).
Qed.

(** ** Every level goes through *)

Section Total.
Variable w : Wavelet.
Hypothesis laws : pywt_shapes w.
Variables (nP nS nX : nat).
Hypothesis nP_pos : (0 < nP)%nat.
Hypothesis nX_pos : (0 < nX)%nat.

Lemma removeRings_locals_ok (level : nat) (sigma : R) (data : stack3) (m0 : nat) :
  rect3 nP nS nX data -> (m0 < nS)%nat ->
  exists st, removeRings_locals w level sigma data m0 = Ok st /\
             rect nP nX (loc_nim st).
Proof.
  intros Hd Hm. unfold removeRings_locals.
  edestruct (decompose_ok w laws nP nX nP_pos nX_pos level) as (st1 & -> & Him & HH & HV & HD);
    [ simpl; eapply rect_getslice; eauto | reflexivity | reflexivity | reflexivity | ].
  rewrite bind_Ok.
  destruct (damp_loop_ok w laws nP nX nP_pos nX_pos sigma level level st1)
    as (st2 & -> & Eim & EH & ED & HV'); [lia | done |].
  rewrite bind_Ok.
  edestruct (reconstruct_ok w laws nP nX nP_pos nX_pos level level) as (st3 & -> & r & c & Hrc & Hr & Hc);
    [ lia | simpl; rewrite EH; exact HH | simpl; exact HV' | simpl; rewrite ED; exact HD
    | simpl; rewrite Eim; eexists _, _; split; [exact Him | split; lia] | ].
  rewrite bind_Ok. rewrite (shape3_rect nP nS nX) by (done || lia).
  eexists. split; [reflexivity|]. simpl. eapply rect_crop; eauto.
Qed.

Lemma removeRings_slice_ok (level : nat) (sigma : R) (data : stack3) (m0 : nat) :
  rect3 nP nS nX data -> (m0 < nS)%nat ->
  exists data', removeRings_slice w level sigma m0 data = Ok data' /\
                rect3 nP nS nX data'.
Proof.
  intros Hd Hm. rewrite removeRings_slice_index.
  destruct (removeRings_locals_ok level sigma data m0 Hd Hm) as (st & -> & Hnim).
  rewrite bind_Ok. rewrite (setslice_exact nP nS nX); try done.
  - eexists. split; [reflexivity|]. now apply rect3_imap_insert.
  - destruct level; lia.
Qed.

Lemma removeRings_loop_ok (level : nat) (sigma : R) (idx : list nat) (data : stack3) :
  rect3 nP nS nX data -> Forall (fun m0 => (m0 < nS)%nat) idx ->
  exists data', for_each (removeRings_slice w level sigma) idx data = Ok data' /\
                rect3 nP nS nX data'.
Proof.
  revert data. induction idx as [|m0 idx IH]; intros data Hd Hidx.
  - exists data. now split.
  - inversion Hidx as [|? ? Hm Hrest]; subst. simpl.
    destruct (removeRings_slice_ok level sigma data m0 Hd Hm) as (d1 & -> & Hd1).
    rewrite bind_Ok. now apply IH.
Qed.

Lemma removeRings_ok (level : nat) (sigma : R) (data : stack3) :
  rect3 nP nS nX data ->
  exists data', removeRings w level sigma data = Ok data' /\
                rect3 nP nS nX data' /\ shape3 data' = shape3 data.
Proof.
  intros Hd. unfold removeRings. rewrite (shape3_slices nP nS nX) by done.
  destruct (removeRings_loop_ok level sigma (seq 0 nS) data Hd) as (d' & Hrun & Hd').
  { apply Forall_forall. intros m0 Hin. apply list_elem_of_In, in_seq in Hin. lia. }
  exists d'. split; [exact Hrun|]. split; [exact Hd'|].
  destruct nS as [|nS'].
  - simpl in Hrun. now injection Hrun as <-.
  - now rewrite !(shape3_rect nP (S nS') nX) by (done || lia).
Qed.
End Total.

(** ** The Haar wavelet has the shapes of pywt *)

Lemma rect_haar_block (a : matrix) (f : R -> R -> R -> R -> R) (r c : nat) :
  rect r c a -> (0 < r)%nat ->
  rect (dwt_coeff_len r 2) (dwt_coeff_len c 2) (haar_block a f).
Proof.
  intros Ha Hr. unfold haar_block. rewrite (rect_shape2 a r c) by done.
  apply (rect_tabulate
           (fun i j => f (entry 0 a (2 * i) (2 * j))
                         (entry 0 a (2 * i) (Nat.min (2 * j + 1) (c - 1)))
                         (entry 0 a (Nat.min (2 * i + 1) (r - 1)) (2 * j))
                         (entry 0 a (Nat.min (2 * i + 1) (r - 1)) (Nat.min (2 * j + 1) (c - 1))))).
Qed.

Lemma haar_shapes : pywt_shapes haar.
Proof.
  split.
  - simpl. lia.
  - intros a r c Ha Hr Hc. cbn [dwt2 dec_len haar]. unfold haar_dwt2.
    rewrite (rect_shape2 a r c) by done.
    destruct r; [lia|]. destruct c; [lia|]. simpl orb. cbv iota.
    eexists _, _, _, _. split; [reflexivity|].
    split_and!; now apply rect_haar_block.
  - intros cA cH cV cD r c HA HH HV HD Hr Hc. cbn [idwt2 dec_len haar]. unfold haar_idwt2.
    rewrite (rect_shape2 cA r c), (rect_shape2 cH r c),
      (rect_shape2 cV r c), (rect_shape2 cD r c) by done.
    unfold shape_eqb. simpl fst. simpl snd. rewrite !Nat.eqb_refl. simpl andb. cbv iota.
    eexists. split; [reflexivity|].
    apply (rect_tabulate
      (fun y x => (entry 0 cA (y / 2) (x / 2)
                   + (if Nat.even y then 1 else -1) * entry 0 cH (y / 2) (x / 2)
                   + (if Nat.even x then 1 else -1) * entry 0 cV (y / 2) (x / 2)
                   + (if Nat.even y then 1 else -1) * (if Nat.even x then 1 else -1)
                     * entry 0 cD (y / 2) (x / 2)) / 2)).
Qed.

(** * The claims on [removeRings] *)

Lemma removeRings_slice_level0 (w : Wavelet) (sigma : R) (nP nS nX m0 : nat) (data : stack3) :
  rect3 nP nS nX data -> (0 < nP)%nat -> (m0 < nS)%nat ->
  removeRings_slice w 0 sigma m0 data = Ok data.
Proof.
  intros Hd HP Hm. unfold removeRings_slice, removeRings_locals. simpl for_each.
  rewrite !bind_Ok. rewrite (shape3_rect nP nS nX) by (done || lia).
  rewrite bind_Ok. cbn [loc_m loc_nim].
  rewrite (crop_id _ nP nX) by (eapply rect_getslice; eauto).
  rewrite (setslice_exact nP nS nX); try done.
  - f_equal. eapply imap_insert_getslice; eauto.
  - eapply rect_getslice; eauto.
Qed.

Lemma for_each_fixed {St} (body : nat -> St -> result St) (idx : list nat) (s : St) :
  Forall (fun i => body i s = Ok s) idx -> for_each body idx s = Ok s.
Proof.
  induction 1 as [|i idx Hi _ IH]; simpl; [reflexivity|]. now rewrite Hi, bind_Ok.
Qed.

(** C10: with [level = 0] no inner loop runs, so nothing is decomposed
    or damped, whatever the wavelet, and [removeRings] returns the stack
    as it was, slice by slice. *)
Theorem removeRings_level0_identity (w : Wavelet) (sigma : R) (nP nS nX : nat)
    (data : stack3) :
  rect3 nP nS nX data -> removeRings w 0 sigma data = Ok data.
Proof.
  intros Hd. unfold removeRings. destruct nP as [|nP'].
  - destruct Hd as [Hlen _]. apply nil_length_inv in Hlen. subst data. reflexivity.
  - rewrite (shape3_slices (S nP') nS nX) by (done || lia).
    apply for_each_fixed, Forall_forall. intros m0 Hin.
    apply list_elem_of_In, in_seq in Hin.
    apply (removeRings_slice_level0 w sigma (S nP') nS nX); (done || lia).
Qed.

Lemma stack_2x2x2_rect : rect3 2 2 2 stack_2x2x2.
Proof. split; [reflexivity|]. repeat constructor. Qed.

Lemma removeRings_level0_identity_witness :
  rect3 2 2 2 stack_2x2x2 /\ removeRings haar 0 2 stack_2x2x2 = Ok stack_2x2x2.
Proof.
  split; [exact stack_2x2x2_rect|].
  exact (removeRings_level0_identity haar 2 2 2 2 stack_2x2x2 stack_2x2x2_rect).
Defined.




(** A sub-band of height one has only its zero frequency, which the
    damping removes. *)
Lemma damp_band_1x1 (sigma v : R) : damp_band sigma [[v]] = [[0]].
Proof.
  unfold damp_band, fft0, fftshift, ifftshift, ifft0, dft_axis0, multiply, transpose,
    tile, real, damp, y_hat, roll, shape2, entry.
  cbn [map seq length hd Nat.div Nat.divmod fst snd Nat.sub drop take app replicate zip_with nth foldr Csum Cadd Cmul Cscal Cexpi Czero INR].
  change (- Z.of_nat 1 + 2 * Z.of_nat 0)%Z with (-1)%Z.
  replace ((-1 + 1) / 2) with 0 by lra.
  rewrite damp_at_0.
  do 2 f_equal. ring.
Qed.

Lemma haar_dwt2_2x2 (a b c d : R) :
  haar_dwt2 [[a; b]; [c; d]]
  = Ok ([[(a + b + c + d) / 2]],
        ([[(a + b - c - d) / 2]], [[(a - b + c - d) / 2]], [[(a - b - c + d) / 2]])).
Proof. reflexivity. Qed.

Lemma haar_idwt2_1x1 (a h v d : R) :
  haar_idwt2 ([[a]], ([[h]], [[v]], [[d]]))
  = Ok [[(a + 1 * h + 1 * v + 1 * 1 * d) / 2; (a + 1 * h + -1 * v + 1 * -1 * d) / 2];
        [(a + -1 * h + 1 * v + -1 * 1 * d) / 2; (a + -1 * h + -1 * v + -1 * -1 * d) / 2]].
Proof. reflexivity. Qed.

Ltac step_bind := rewrite ?bind_Ok; cbn beta iota.

Lemma removeRings_locals_haar_2x2 {B} (k : matrix -> result B) (sigma a b c d : R)
    (m0 : nat) (data : stack3) (nS : nat) :
  shape3 data = (2%nat, nS, 2%nat) ->
  getslice m0 data = [[a; b]; [c; d]] ->
  (st ← removeRings_locals haar 1 sigma data m0; k (loc_nim st))
  = k [[((a + b + c + d) / 2 + (a + b - c - d) / 2 + (a - b - c + d) / 2) / 2;
        ((a + b + c + d) / 2 + (a + b - c - d) / 2 - (a - b - c + d) / 2) / 2];
       [((a + b + c + d) / 2 - (a + b - c - d) / 2 - (a - b - c + d) / 2) / 2;
        ((a + b + c + d) / 2 - (a + b - c - d) / 2 + (a - b - c + d) / 2) / 2]].
Proof.
  intros Hshape Hslice.
  unfold removeRings_locals. rewrite Hshape, Hslice.
  cbn [seq for_each reverse rev_append]. unfold decompose_body at 1.
  cbn [loc_im loc_cH loc_cV loc_cD loc_m loc_nim dwt2 haar].
  rewrite haar_dwt2_2x2. step_bind. cbn [app].
  unfold damp_body. cbn [loc_im loc_cH loc_cV loc_cD loc_m loc_nim].
  unfold getitem at 1. cbn [lookup list_lookup]. step_bind.
  rewrite damp_band_1x1. cbn [insert list_insert].
  unfold reconstruct_body. cbn [loc_im loc_cH loc_cV loc_cD loc_m loc_nim].
  unfold getitem. cbn [lookup list_lookup]. step_bind.
  cbn [shape2 length hd fst snd crop map take idwt2 haar].
  rewrite haar_idwt2_1x1. step_bind.
  cbn [loc_im loc_cH loc_cV loc_cD loc_m loc_nim crop map take].
  f_equal. repeat (f_equal; try lra).
Qed.

Lemma removeRings_slice_haar_2x2 (sigma a b c d : R) (m0 : nat) (data : stack3) (nS : nat) :
  shape3 data = (2%nat, nS, 2%nat) ->
  getslice m0 data = [[a; b]; [c; d]] ->
  removeRings_slice haar 1 sigma m0 data
  = setslice 0 [[((a + b + c + d) / 2 + (a + b - c - d) / 2 + (a - b - c + d) / 2) / 2;
                 ((a + b + c + d) / 2 + (a + b - c - d) / 2 - (a - b - c + d) / 2) / 2];
                [((a + b + c + d) / 2 - (a + b - c - d) / 2 - (a - b - c + d) / 2) / 2;
                 ((a + b + c + d) / 2 - (a + b - c - d) / 2 + (a - b - c + d) / 2) / 2]]
      data.
Proof.
  intros Hshape Hslice. rewrite removeRings_slice_index.
  exact (removeRings_locals_haar_2x2 (fun nim => setslice 0 nim data)
           sigma a b c d m0 data nS Hshape Hslice).
Qed.

Lemma removeRings_slice_spec_haar_2x2 (sigma a b c d : R) (m0 : nat) (data : stack3)
    (nS : nat) :
  shape3 data = (2%nat, nS, 2%nat) ->
  getslice m0 data = [[a; b]; [c; d]] ->
  removeRings_slice_spec haar 1 sigma m0 data
  = setslice m0 [[((a + b + c + d) / 2 + (a + b - c - d) / 2 + (a - b - c + d) / 2) / 2;
                  ((a + b + c + d) / 2 + (a + b - c - d) / 2 - (a - b - c + d) / 2) / 2];
                 [((a + b + c + d) / 2 - (a + b - c - d) / 2 - (a - b - c + d) / 2) / 2;
                  ((a + b + c + d) / 2 - (a + b - c - d) / 2 + (a - b - c + d) / 2) / 2]]
      data.
Proof.
  intros Hshape Hslice.
  exact (removeRings_locals_haar_2x2 (fun nim => setslice m0 nim data)
           sigma a b c d m0 data nS Hshape Hslice).
Qed.

Lemma setslice_1_2x2x2 (x1 x2 x3 x4 : R) (s1 s1' r1 r2 : list R) :
  length r1 = 2%nat ->
  setslice 1 [[x1; x2]; [x3; x4]] [[r1; s1]; [r2; s1']]
  = Ok [[r1; [x1; x2]]; [r2; [x3; x4]]].
Proof.
  intros H. unfold setslice, shape3, shape2. cbn [length hd]. rewrite H. reflexivity.
Qed.

Lemma setslice_0_2x2x2 (x1 x2 x3 x4 : R) (s0 s0' r1 r2 : list R) :
  length s0 = 2%nat ->
  setslice 0 [[x1; x2]; [x3; x4]] [[s0; r1]; [s0'; r2]]
  = Ok [[[x1; x2]; r1]; [[x3; x4]; r2]].
Proof.
  intros H. unfold setslice, shape3, shape2. cbn [length hd]. rewrite H. reflexivity.
Qed.

Lemma ring_stack_removeRings :
  removeRings haar 1 2 ring_stack
  = Ok [[[1 / 2; 1 / 2]; [1; 0]]; [[1 / 2; 1 / 2]; [1; 0]]].
Proof.
  unfold removeRings, ring_stack. cbn [shape3 length hd fst snd seq for_each].
  rewrite (removeRings_slice_haar_2x2 2 0 0 0 0 0 _ 2) by reflexivity.
  rewrite setslice_0_2x2x2 by reflexivity. rewrite bind_Ok.
  rewrite (removeRings_slice_haar_2x2 2 1 0 1 0 1 _ 2) by reflexivity.
  rewrite setslice_0_2x2x2 by reflexivity. rewrite !bind_Ok.
  repeat (f_equal; try lra).
Qed.

(** C1: on the stack of two projections and two slices whose slice 1
    carries a stripe, with the Haar wavelet at level 1, the iteration for
    slice 1 writes its result to slice 0 and leaves slice 1 as it was,
    where writing to the slice that was decomposed would leave slice 0 as
    it was; the whole call ends with the stripe still in slice 1. *)
Theorem removeRings_writes_slice_0 :
  (getslice 0 ring_stack = [[0; 0]; [0; 0]]) /\
  (getslice 1 ring_stack = [[1; 0]; [1; 0]]) /\
  (removeRings_slice haar 1 2 1 ring_stack
   = Ok [[[1 / 2; 1 / 2]; [1; 0]]; [[1 / 2; 1 / 2]; [1; 0]]]) /\
  (removeRings_slice_spec haar 1 2 1 ring_stack
   = Ok [[[0; 0]; [1 / 2; 1 / 2]]; [[0; 0]; [1 / 2; 1 / 2]]]) /\
  (removeRings haar 1 2 ring_stack
   = Ok [[[1 / 2; 1 / 2]; [1; 0]]; [[1 / 2; 1 / 2]; [1; 0]]]) /\
  (1 / 2 : R) <> 0 /\ (1 / 2 : R) <> 1.
Proof.
  split_and!; try reflexivity; try lra.
  - rewrite (removeRings_slice_haar_2x2 2 1 0 1 0 1 _ 2) by reflexivity.
    unfold ring_stack. rewrite setslice_0_2x2x2 by reflexivity.
    repeat (f_equal; try lra).
  - rewrite (removeRings_slice_spec_haar_2x2 2 1 0 1 0 1 _ 2) by reflexivity.
    unfold ring_stack. rewrite setslice_1_2x2x2 by reflexivity.
    repeat (f_equal; try lra).
  - apply ring_stack_removeRings.
Qed.

(** ** The histogram *)

Lemma hist_total_app (h k : list nat) :
  hist_total (h ++ k) = (hist_total h + hist_total k)%nat.
Proof. induction h as [|n h IH]; simpl; [reflexivity|]. rewrite IH. lia. Qed.

Lemma count_if_sum (p : R -> bool) (a : list R) :
  count_if p a = hist_total (map (fun x => b2n (p x)) a).
Proof. induction a as [|x a IH]; simpl; [reflexivity|]. now rewrite IH. Qed.

Lemma bin_edge_0 (lo hi : R) (bins : nat) : bin_edge lo hi bins 0 = lo.
Proof. unfold bin_edge. simpl. unfold Rdiv. ring. Qed.

Lemma bin_edge_last (lo hi : R) (bins : nat) :
  (0 < bins)%nat -> bin_edge lo hi bins bins = hi.
Proof.
  intros Hb. unfold bin_edge. assert (INR bins <> 0) by (apply not_0_INR; lia).
  field. done.
Qed.

Lemma bin_edge_step (lo hi : R) (bins k : nat) :
  (0 < bins)%nat -> lo < hi -> bin_edge lo hi bins k < bin_edge lo hi bins (S k).
Proof.
  intros Hb Hlt. unfold bin_edge. rewrite S_INR.
  assert (0 < INR bins) by (apply lt_0_INR; lia).
  assert (0 < (hi - lo) / INR bins) by (apply Rdiv_lt_0_compat; lra).
  unfold Rdiv in *. nra.
Qed.

Lemma bin_edge_mono (lo hi : R) (bins k : nat) :
  (0 < bins)%nat -> lo < hi -> bin_edge lo hi bins 0 <= bin_edge lo hi bins k.
Proof.
  intros Hb Hlt. induction k as [|k IH]; [lra|].
  pose proof (bin_edge_step lo hi bins k Hb Hlt). lra.
Qed.

Lemma bins_prefix (lo hi : R) (bins k : nat) (x : R) :
  (0 < bins)%nat -> lo < hi -> (k <= bins)%nat ->
  hist_total (map (fun i => b2n (in_bin lo hi bins i x)) (seq 0 k))
  = b2n (in_prefix lo hi bins k x).
Proof.
  intros Hb Hlt Hk. induction k as [|k IH].
  - simpl. unfold in_prefix. destruct (Rle_dec _ x); [|reflexivity].
    replace (0 =? bins)%nat with false by (symmetry; apply Nat.eqb_neq; lia).
    destruct (Rlt_dec x _); [lra | reflexivity].
  - rewrite seq_S, map_app, hist_total_app, IH by lia. simpl.
    pose proof (bin_edge_step lo hi bins k Hb Hlt) as Hstep.
    pose proof (bin_edge_mono lo hi bins k Hb Hlt) as Hmono.
    unfold in_prefix, in_bin.
    replace (k =? bins)%nat with false by (symmetry; apply Nat.eqb_neq; lia).
    destruct (S k =? bins)%nat;
      repeat (destruct (Rle_dec _ _) || destruct (Rlt_dec _ _));
      simpl; try reflexivity; lra.
Qed.

Lemma in_prefix_all (lo hi : R) (bins : nat) (x : R) :
  (0 < bins)%nat -> in_prefix lo hi bins bins x = in_range lo hi x.
Proof.
  intros Hb. unfold in_prefix, in_range.
  rewrite Nat.eqb_refl, bin_edge_0, bin_edge_last by done. reflexivity.
Qed.

Lemma hist_total_map_swap (a : list R) (idx : list nat) (f : nat -> R -> nat) :
  hist_total (map (fun i => hist_total (map (f i) a)) idx)
  = hist_total (map (fun x => hist_total (map (fun i => f i x) idx)) a).
Proof.
  induction a as [|x a IH]; simpl.
  - induction idx as [|i idx IHi]; simpl; [reflexivity | exact IHi].
  - rewrite <- IH. clear IH.
    induction idx as [|i idx IHi]; simpl; [reflexivity|]. rewrite IHi. lia.
Qed.

(** Every value of the range is counted once, and no other. *)
Lemma histogram_total (a : list R) (bins : nat) (lo hi : R) :
  (0 < bins)%nat -> lo < hi ->
  hist_total (map (fun i => count_if (in_bin lo hi bins i) a) (seq 0 bins))
  = count_if (in_range lo hi) a.
Proof.
  intros Hb Hlt.
  rewrite (map_ext _ (fun i => hist_total (map (fun x => b2n (in_bin lo hi bins i x)) a)))
    by (intros i; apply count_if_sum).
  rewrite (hist_total_map_swap a (seq 0 bins) (fun i x => b2n (in_bin lo hi bins i x))).
  rewrite count_if_sum. f_equal. apply map_ext. intros x.
  rewrite bins_prefix by (done || lia). now rewrite in_prefix_all.
Qed.

Lemma count_if_le (p : R -> bool) (a : list R) : (count_if p a <= length a)%nat.
Proof. induction a as [|x a IH]; simpl; [lia|]. destruct (p x); simpl; lia. Qed.

Lemma hist_bounds_lt (lo hi : R) : lo < hi -> hist_bounds lo hi = (lo, hi).
Proof. intros H. unfold hist_bounds. destruct (Req_dec_T lo hi); [lra | reflexivity]. Qed.

Lemma np_histogram_lt (a : list R) (bins : nat) (lo hi : R) :
  lo < hi ->
  np_histogram a bins lo hi
  = Ok (map (fun i => count_if (in_bin lo hi bins i) a) (seq 0 bins)).
Proof.
  intros H. unfold np_histogram. destruct (Rlt_dec hi lo); [lra|].
  now rewrite hist_bounds_lt.
Qed.

Lemma np_histogram_ok (a : list R) (bins : nat) (lo hi : R) :
  ~ hi < lo -> exists h, np_histogram a bins lo hi = Ok h.
Proof.
  intros H. unfold np_histogram. destruct (Rlt_dec hi lo); [done|].
  destruct (hist_bounds lo hi). eauto.
Qed.

Lemma count_if_none (p : R -> bool) (a : list R) :
  Forall (fun x => p x = false) a -> count_if p a = 0%nat.
Proof. induction 1 as [|x a Hx _ IH]; simpl; [reflexivity|]. now rewrite Hx, IH. Qed.

(** ** The cost function and the search *)

Lemma bindM_Ok {A B} (c : M A) (f : A -> M B) (s s' : ostate) (a : A) :
  c s = (Ok a, s') -> bindM c f s = f a s'.
Proof. intros H. unfold bindM. now rewrite H. Qed.

Lemma bindM_Raise {A B} (c : M A) (f : A -> M B) (s s' : ostate) (e : exn) :
  c s = (Raise e, s') -> bindM c f s = (Raise e, s').
Proof. intros H. unfold bindM. now rewrite H. Qed.

Lemma same_arrays_refl (self : read) : same_arrays self self.
Proof. now repeat split. Qed.

Lemma same_arrays_set_center (self self' : read) (c : R) :
  same_arrays self self' -> same_arrays self (set_center c self').
Proof. intros H. exact H. Qed.

(** What a call of the cost function does to the state, whatever it
    returns. *)
Lemma costFunc_state (E : Engine) (Sc : Scipy) (c : R) (sliceNo : Z)
    (lo hi fs : R) (s : ostate) :
  exists img,
    snd (_costFunc E Sc c sliceNo lo hi fs s)
    = {| st_self := set_center c (st_self s); st_recon := img;
         st_trace := st_trace s ++ [Evaluate c; Reconstruct c sliceNo] |}.
Proof.
  unfold _costFunc, bindM, assign_center, recon_run, get_recon, liftM. simpl.
  destruct (run E (set_center c (st_self s)) sliceNo) as [img|e]; simpl.
  - exists img. rewrite <- app_assoc. simpl.
    now destruct (entropy_cost Sc img lo hi fs).
  - exists (st_recon s). now rewrite <- app_assoc.
Qed.

Lemma costFunc_run (E : Engine) (Sc : Scipy) (c : R) (sliceNo : Z)
    (lo hi fs : R) (s : ostate) (img : matrix) :
  run E (set_center c (st_self s)) sliceNo = Ok img ->
  _costFunc E Sc c sliceNo lo hi fs s
  = (entropy_cost Sc img lo hi fs,
     {| st_self := set_center c (st_self s); st_recon := img;
        st_trace := st_trace s ++ [Evaluate c; Reconstruct c sliceNo] |}).
Proof.
  intros Hrun.
  unfold _costFunc, bindM, assign_center, recon_run, get_recon, liftM. simpl.
  rewrite Hrun. simpl. rewrite <- app_assoc. simpl.
  now destruct (entropy_cost Sc img lo hi fs).
Qed.

Lemma costFunc_frame (E : Engine) (Sc : Scipy) (c : R) (sliceNo : Z)
    (lo hi fs : R) (self : read) (s : ostate) :
  same_arrays self (st_self s) ->
  same_arrays self (st_self (snd (_costFunc E Sc c sliceNo lo hi fs s))) /\
  evaluated_last (snd (_costFunc E Sc c sliceNo lo hi fs s)).
Proof.
  intros Hs. destruct (costFunc_state E Sc c sliceNo lo hi fs s) as [img ->].
  split; [exact Hs|]. exists (st_trace s), c, sliceNo. now split.
Qed.

Lemma minimize_loop_frame (E : Engine) (Sc : Scipy) (sliceNo : Z) (lo hi fs : R)
    (self : read) (tol x0 : R) (fuel : nat) :
  forall (evals : list (R * R)) (s : ostate),
    same_arrays self (st_self s) -> evaluated_last s ->
    let out := minimize_loop Sc (fun c => _costFunc E Sc c sliceNo lo hi fs)
                             tol x0 fuel evals s in
    same_arrays self (st_self (snd out)) /\ evaluated_last (snd out).
Proof.
  induction fuel as [|fuel IH]; intros evals s Hs Hl; simpl.
  - now split.
  - destruct (propose Sc tol x0 evals) as [c|]; [|now split].
    destruct (costFunc_frame E Sc c sliceNo lo hi fs self s Hs) as [Hs' Hl'].
    unfold bindM.
    destruct (_costFunc E Sc c sliceNo lo hi fs s) as [[y|e] s']; simpl in *.
    + now apply IH.
    + now split.
Qed.

Lemma minimize_frame (E : Engine) (Sc : Scipy) (sliceNo : Z) (lo hi fs : R)
    (self : read) (tol x0 : R) (s : ostate) :
  same_arrays self (st_self s) ->
  let out := minimize Sc (fun c => _costFunc E Sc c sliceNo lo hi fs) tol x0 s in
  same_arrays self (st_self (snd out)) /\ evaluated_last (snd out).
Proof.
  intros Hs. unfold minimize, bindM.
  destruct (costFunc_frame E Sc x0 sliceNo lo hi fs self s Hs) as [Hs' Hl'].
  destruct (_costFunc E Sc x0 sliceNo lo hi fs s) as [[y|e] s']; simpl in *.
  - now apply minimize_loop_frame.
  - now split.
Qed.

(** Lines 217-245 step by step. *)
Lemma optimizeCenter_setup_unfold (E : Engine) (sliceNo : option Z)
    (inCenter : option pyval) (histMin histMax : option R) (s : ostate) :
  optimizeCenter_setup E sliceNo inCenter histMin histMax s
  = match check_sliceNo (snd (fst (shape3 (data (st_self s))))) sliceNo with
    | Raise e => (Raise e, s)
    | Ok sliceNo' =>
      match check_inCenter (snd (shape3 (data (st_self s)))) inCenter with
      | Raise e => (Raise e, s)
      | Ok x0 =>
        match run E (st_self s) sliceNo' with
        | Raise e => (Raise e, probed s sliceNo' (st_recon s))
        | Ok probe =>
          match default_histMin histMin probe with
          | Raise e => (Raise e, probed s sliceNo' probe)
          | Ok lo =>
            match default_histMax histMax probe with
            | Raise e => (Raise e, probed s sliceNo' probe)
            | Ok hi => (Ok (sliceNo', x0, lo, hi), probed s sliceNo' probe)
            end
          end
        end
      end
    end.
Proof.
  unfold optimizeCenter_setup.
  destruct (shape3 (data (st_self s))) as [[nP nS] nX]. cbn [fst snd].
  unfold bindM, liftM, recon_run, get_recon, retM, probed.
  destruct (check_sliceNo nS sliceNo) as [sliceNo'|e]; [|reflexivity].
  destruct (check_inCenter nX inCenter) as [x0|e]; [|reflexivity].
  destruct (run E (st_self s) sliceNo') as [probe|e]; [|reflexivity].
  cbn [st_recon].
  destruct (default_histMin histMin probe) as [lo|e]; [|reflexivity].
  destruct (default_histMax histMax probe) as [hi|e]; reflexivity.
Qed.

Lemma optimizeCenter_setup_state (E : Engine) (sliceNo : option Z)
    (inCenter : option pyval) (histMin histMax : option R) (s : ostate) :
  st_self (snd (optimizeCenter_setup E sliceNo inCenter histMin histMax s)) = st_self s.
Proof.
  rewrite optimizeCenter_setup_unfold.
  repeat match goal with
         | |- context [match ?x with Ok _ => _ | Raise _ => _ end] => destruct x
         end; reflexivity.
Qed.

Lemma np_min_cons (x : R) (a : list R) : np_min (x :: a) = Ok (foldl Rmin x a).
Proof. reflexivity. Qed.

Lemma np_max_cons (x : R) (a : list R) : np_max (x :: a) = Ok (foldl Rmax x a).
Proof. reflexivity. Qed.

Lemma np_min_ok (a : list R) : a <> [] -> exists m, np_min a = Ok m.
Proof. destruct a; [done|]. eauto. Qed.

Lemma np_max_ok (a : list R) : a <> [] -> exists m, np_max a = Ok m.
Proof. destruct a; [done|]. eauto. Qed.

Lemma default_histMin_rule (img : matrix) (mn : R) :
  np_min (concat img) = Ok mn ->
  default_histMin None img = Ok (if Rlt_dec mn 0 then 2 * mn else (1 / 2) * mn).
Proof.
  intros H. unfold default_histMin. rewrite H. cbn [mbind result_bind].
  destruct (Rlt_dec mn 0); [reflexivity|].
  destruct (Rge_dec mn 0); [reflexivity|lra].
Qed.

Lemma default_histMax_rule (img : matrix) (mx : R) :
  np_max (concat img) = Ok mx ->
  default_histMax None img = Ok (if Rlt_dec mx 0 then (1 / 2) * mx else 2 * mx).
Proof.
  intros H. unfold default_histMax. rewrite H. cbn [mbind result_bind].
  destruct (Rlt_dec mx 0); [reflexivity|].
  destruct (Rge_dec mx 0); [reflexivity|lra].
Qed.

Lemma default_histMin_bound (histMin : option R) (img : matrix) (mn : R) :
  np_min (concat img) = Ok mn ->
  default_histMin histMin img
  = Ok (bound_or histMin (if Rlt_dec mn 0 then 2 * mn else (1 / 2) * mn)).
Proof.
  intros H. destruct histMin; [reflexivity|]. now apply default_histMin_rule.
Qed.

Lemma default_histMax_bound (histMax : option R) (img : matrix) (mx : R) :
  np_max (concat img) = Ok mx ->
  default_histMax histMax img
  = Ok (bound_or histMax (if Rlt_dec mx 0 then (1 / 2) * mx else 2 * mx)).
Proof.
  intros H. destruct histMax; [reflexivity|]. now apply default_histMax_rule.
Qed.

Lemma optimizeCenter_setup_run (E : Engine) (sliceNo : option Z)
    (inCenter : option pyval) (histMin histMax : option R) (s : ostate)
    (sliceNo' : Z) (x0 mn mx : R) (probe : matrix) :
  check_sliceNo (snd (fst (shape3 (data (st_self s))))) sliceNo = Ok sliceNo' ->
  check_inCenter (snd (shape3 (data (st_self s)))) inCenter = Ok x0 ->
  run E (st_self s) sliceNo' = Ok probe ->
  np_min (concat probe) = Ok mn ->
  np_max (concat probe) = Ok mx ->
  optimizeCenter_setup E sliceNo inCenter histMin histMax s
  = (Ok (sliceNo', x0,
         bound_or histMin (if Rlt_dec mn 0 then 2 * mn else (1 / 2) * mn),
         bound_or histMax (if Rlt_dec mx 0 then (1 / 2) * mx else 2 * mx)),
     probed s sliceNo' probe).
Proof.
  intros Hs Hc Hrun Hmn Hmx. rewrite optimizeCenter_setup_unfold, Hs, Hc, Hrun.
  now rewrite (default_histMin_bound _ _ _ Hmn), (default_histMax_bound _ _ _ Hmx).
Qed.

Lemma check_sliceNo_too_high (numSlices : nat) (n : Z) :
  (Z.of_nat numSlices < n)%Z -> check_sliceNo numSlices (Some n) = Raise ValueError.
Proof. intros H. unfold check_sliceNo. now apply Z.ltb_lt in H as ->. Qed.

Lemma check_sliceNo_error (numSlices : nat) (sliceNo : option Z) (e : exn) :
  check_sliceNo numSlices sliceNo = Raise e -> e = ValueError.
Proof.
  destruct sliceNo as [n|]; simpl; [|done].
  destruct (Z.of_nat numSlices <? n)%Z; congruence.
Qed.

Lemma optimizeCenter_unfold (E : Engine) (Sc : Scipy) (self : read)
    (sliceNo : option Z) (inCenter : option pyval) (histMin histMax : option R)
    (tol fs : R) :
  optimizeCenter E Sc self sliceNo inCenter histMin histMax tol fs
  = match optimizeCenter_setup E sliceNo inCenter histMin histMax (initial_state self) with
    | (Ok (sliceNo', x0, lo, hi), s) =>
        minimize Sc (fun c => _costFunc E Sc c sliceNo' lo hi fs) tol x0 s
    | (Raise e, s) => (Raise e, s)
    end.
Proof.
  unfold optimizeCenter, optimizeCenter_body, bindM.
  destruct (optimizeCenter_setup _ _ _ _ _ _) as [[[[[s' x0] lo] hi]|e] s]; reflexivity.
Qed.

Lemma optimizeCenter_sliceNo_error (E : Engine) (Sc : Scipy) (self : read)
    (n : Z) (inCenter : option pyval) (histMin histMax : option R) (tol fs : R) :
  (Z.of_nat (snd (fst (shape3 (data self)))) < n)%Z ->
  optimizeCenter E Sc self (Some n) inCenter histMin histMax tol fs
  = (Raise ValueError, initial_state self).
Proof.
  intros H. rewrite optimizeCenter_unfold, optimizeCenter_setup_unfold.
  cbn [initial_state st_self]. now rewrite (check_sliceNo_too_high _ _ H).
Qed.

Lemma optimizeCenter_inCenter_error (E : Engine) (Sc : Scipy) (self : read)
    (sliceNo : option Z) (xs : list R) (histMin histMax : option R) (tol fs : R) :
  optimizeCenter E Sc self sliceNo (Some (Array xs)) histMin histMax tol fs
  = (Raise ValueError, initial_state self).
Proof.
  rewrite optimizeCenter_unfold, optimizeCenter_setup_unfold.
  cbn [initial_state st_self].
  destruct (check_sliceNo _ sliceNo) as [s|e] eqn:Hs; [reflexivity|].
  now rewrite (check_sliceNo_error _ _ _ Hs).
Qed.

Lemma optimizeCenter_frame_all (E : Engine) (Sc : Scipy) (self : read)
    (sliceNo : option Z) (inCenter : option pyval) (histMin histMax : option R)
    (tol fs : R) :
  let out := optimizeCenter E Sc self sliceNo inCenter histMin histMax tol fs in
  same_arrays self (st_self (snd out)) /\
  (forall x, fst out = Ok x -> evaluated_last (snd out)).
Proof.
  cbv zeta. rewrite optimizeCenter_unfold.
  pose proof (optimizeCenter_setup_state E sliceNo inCenter histMin histMax
                (initial_state self)) as Hst.
  destruct (optimizeCenter_setup _ _ _ _ _ _) as [[[[[s' x0] lo] hi]|e] s];
    cbn [fst snd] in *.
  - assert (Hs : same_arrays self (st_self s))
      by (rewrite Hst; apply same_arrays_refl).
    destruct (minimize_frame E Sc s' lo hi fs self tol x0 s Hs) as [H1 H2].
    split; [exact H1|]. intros _ _. exact H2.
  - split; [rewrite Hst; apply same_arrays_refl | discriminate].
Qed.

Lemma entropy_cost_lt (Sc : Scipy) (img : matrix) (lo hi fs : R) :
  lo < hi ->
  let histr := map (fun i => count_if (in_bin lo hi 64 i)
                                      (concat (gaussian_filter Sc img fs))) (seq 0 64) in
  let p := map (fun n => INR n / INR (length (concat img)) + 1 / 10 ^ 12) histr in
  entropy_cost Sc img lo hi fs = Ok (- dot p (map log2 p)).
Proof.
  intros Hlt. unfold entropy_cost. now rewrite np_histogram_lt.
Qed.

Lemma entropy_cost_ok (Sc : Scipy) (img : matrix) (lo hi fs : R) :
  lo < hi -> exists v, entropy_cost Sc img lo hi fs = Ok v.
Proof. intros Hlt. rewrite entropy_cost_lt by done. eauto. Qed.

(** C2: with [histMin < histMax] and a reconstruction that succeeds, the
    cost function counts the smoothed values in 64 bins over
    [[histMin, histMax]]; the values within the range are counted once
    each and the others not at all, so the counts add up to the number of
    values in the range, at most the number of pixels. The counts are
    divided by the number of pixels, 1e-12 is added to each, and the
    negative of the sum of [p * log2 p] is returned. *)
Theorem costFunc_entropy (E : Engine) (Sc : Scipy) (c : R) (sliceNo : Z)
    (histMin histMax filterSigma : R) (s : ostate) (img : matrix) :
  histMin < histMax ->
  run E (set_center c (st_self s)) sliceNo = Ok img ->
  let smoothed := concat (gaussian_filter Sc img filterSigma) in
  let histr := map (fun i => count_if (in_bin histMin histMax 64 i) smoothed) (seq 0 64) in
  let p := map (fun n => INR n / INR (length (concat img)) + 1 / 10 ^ 12) histr in
  fst (_costFunc E Sc c sliceNo histMin histMax filterSigma s)
  = Ok (- dot p (map log2 p)) /\
  length histr = 64%nat /\
  hist_total histr = count_if (in_range histMin histMax) smoothed /\
  (hist_total histr <= length smoothed)%nat.
Proof.
  intros Hlt Hrun smoothed histr p. split_and!.
  - rewrite (costFunc_run _ _ _ _ _ _ _ _ _ Hrun). cbn [fst].
    now apply entropy_cost_lt.
  - unfold histr. now rewrite length_map, length_seq.
  - unfold histr. apply histogram_total; [lia | done].
  - unfold histr. rewrite histogram_total by (lia || done). apply count_if_le.
Qed.

Lemma costFunc_entropy_witness :
  0 < 1 /\
  run echo_engine (set_center 3 (st_self (initial_state (stack_at 2)))) 0 = Ok [[3]] /\
  hist_total (map (fun i => count_if (in_bin 0 1 64 i)
                     (concat (gaussian_filter two_point_search [[3]] 2))) (seq 0 64))
  = count_if (in_range 0 1) (concat (gaussian_filter two_point_search [[3]] 2)).
Proof.
  split; [lra|]. split; [reflexivity|].
  apply (costFunc_entropy echo_engine two_point_search 3 0 0 1 2
           (initial_state (stack_at 2)) [[3]]); [lra | reflexivity].
Defined.

(** A value above the range is in no bin: the histogram of the one-pixel
    image 5 over [[0, 1]] counts nothing. *)
Lemma costFunc_histogram_not_clipped :
  np_histogram (concat (gaussian_filter two_point_search [[5]] 2)) 64 0 1
  = Ok (map (fun i => count_if (in_bin 0 1 64 i) [5]) (seq 0 64)) /\
  hist_total (map (fun i => count_if (in_bin 0 1 64 i) [5]) (seq 0 64)) = 0%nat /\
  length (concat [[5]]) = 1%nat.
Proof.
  split_and!.
  - rewrite np_histogram_lt by lra. reflexivity.
  - rewrite histogram_total by (lia || lra). cbn [count_if]. unfold in_range.
    destruct (Rle_dec 0 5); [|lra]. destruct (Rle_dec 5 1); [lra|reflexivity].
  - reflexivity.
Qed.

(** C3: when the checks pass and the reconstruction of the slice
    succeeds on a non-empty image, [optimizeCenter] has reconstructed the
    slice once, at the centre the stack has at the call, and a bound not
    given is derived from the extreme of that image: twice the minimum
    when negative, else half of it; half the maximum when negative, else
    twice it. *)
Theorem optimizeCenter_probe (E : Engine) (self : read) (sliceNo : option Z)
    (inCenter : option pyval) (histMin histMax : option R)
    (sliceNo' : Z) (x0 mn mx : R) (probe : matrix) :
  check_sliceNo (snd (fst (shape3 (data self)))) sliceNo = Ok sliceNo' ->
  check_inCenter (snd (shape3 (data self))) inCenter = Ok x0 ->
  run E self sliceNo' = Ok probe ->
  np_min (concat probe) = Ok mn ->
  np_max (concat probe) = Ok mx ->
  optimizeCenter_setup E sliceNo inCenter histMin histMax (initial_state self)
  = (Ok (sliceNo', x0,
         match histMin with
         | Some h => h
         | None => if Rlt_dec mn 0 then 2 * mn else (1 / 2) * mn
         end,
         match histMax with
         | Some h => h
         | None => if Rlt_dec mx 0 then (1 / 2) * mx else 2 * mx
         end),
     {| st_self := self; st_recon := probe;
        st_trace := [Reconstruct (center self) sliceNo'] |}).
Proof.
  intros Hs Hc Hrun Hmn Hmx.
  exact (optimizeCenter_setup_run E sliceNo inCenter histMin histMax
           (initial_state self) sliceNo' x0 mn mx probe Hs Hc Hrun Hmn Hmx).
Qed.

Lemma optimizeCenter_probe_witness :
  check_sliceNo (snd (fst (shape3 (data (stack_at 2))))) (Some 0%Z) = Ok 0%Z /\
  check_inCenter (snd (shape3 (data (stack_at 2)))) (Some (Scalar 5)) = Ok 5 /\
  run echo_engine (stack_at 2) 0 = Ok [[2]] /\
  np_min (concat [[2]]) = Ok 2 /\
  np_max (concat [[2]]) = Ok 2 /\
  optimizeCenter_setup echo_engine (Some 0%Z) (Some (Scalar 5)) None None
    (initial_state (stack_at 2))
  = (Ok (0%Z, 5, if Rlt_dec 2 0 then 2 * 2 else (1 / 2) * 2,
         if Rlt_dec 2 0 then (1 / 2) * 2 else 2 * 2),
     {| st_self := stack_at 2; st_recon := [[2]];
        st_trace := [Reconstruct 2 0] |}).
Proof.
  split_and!; try reflexivity.
  apply (optimizeCenter_probe echo_engine (stack_at 2) (Some 0%Z) (Some (Scalar 5))
           None None 0%Z 5 2 2 [[2]]); reflexivity.
Defined.

(** The stack has centre 2 and the search is started at 5: the slice is
    reconstructed at 2, and the bounds are those of that image. *)
Lemma optimizeCenter_probe_not_at_inCenter :
  optimizeCenter_setup echo_engine (Some 0%Z) (Some (Scalar 5)) None None
    (initial_state (stack_at 2))
  = (Ok (0%Z, 5, (1 / 2) * 2, 2 * 2),
     {| st_self := stack_at 2; st_recon := [[2]];
        st_trace := [Reconstruct 2 0] |}) /\
  run echo_engine (set_center 5 (stack_at 2)) 0 = Ok [[5]] /\
  (2 : R) <> 5 /\ (1 / 2) * 2 <> (1 / 2) * 5.
Proof.
  split_and!; [|reflexivity|lra|lra].
  rewrite (optimizeCenter_setup_run echo_engine (Some 0%Z) (Some (Scalar 5)) None None
             (initial_state (stack_at 2)) 0%Z 5 2 2 [[2]]) by reflexivity.
  cbn [bound_or]. destruct (Rlt_dec 2 0); [lra|reflexivity].
Qed.

Lemma optimizeCenter_setup_defaults (E : Engine) (self : read)
    (histMin histMax : option R) (args : Z * R * R * R) (s : ostate) :
  optimizeCenter_setup E None None histMin histMax (initial_state self) = (Ok args, s) ->
  fst (fst (fst args)) = (Z.of_nat (snd (fst (shape3 (data self)))) / 2)%Z /\
  snd (fst (fst args)) = IZR (Z.of_nat (snd (shape3 (data self))) / 2).
Proof.
  rewrite optimizeCenter_setup_unfold. cbn [initial_state st_self check_sliceNo check_inCenter].
  destruct (run E self _) as [probe|e]; [|discriminate].
  destruct (default_histMin histMin probe) as [lo|e]; [|discriminate].
  destruct (default_histMax histMax probe) as [hi|e]; [|discriminate].
  intros [= <- _]. now split.
Qed.

(** C7: a [sliceNo] not given is the number of slices divided by 2,
    rounded down, and an [inCenter] not given is the number of pixels
    divided by 2, rounded down as well; a [sliceNo] above the number of
    slices and an [inCenter] that is not a scalar each raise ValueError
    with no reconstruction done, the state being the one at the call. *)
Theorem optimizeCenter_validation (E : Engine) (Sc : Scipy) (self : read)
    (histMin histMax : option R) (tol filterSigma : R) :
  let numSlices := snd (fst (shape3 (data self))) in
  let numPixels := snd (shape3 (data self)) in
  check_sliceNo numSlices None = Ok (Z.of_nat numSlices / 2)%Z /\
  check_inCenter numPixels None = Ok (IZR (Z.of_nat numPixels / 2)) /\
  (forall args s,
     optimizeCenter_setup E None None histMin histMax (initial_state self) = (Ok args, s) ->
     fst (fst (fst args)) = (Z.of_nat numSlices / 2)%Z /\
     snd (fst (fst args)) = IZR (Z.of_nat numPixels / 2)) /\
  (forall n inCenter,
     (Z.of_nat numSlices < n)%Z ->
     optimizeCenter E Sc self (Some n) inCenter histMin histMax tol filterSigma
     = (Raise ValueError, initial_state self)) /\
  (forall sliceNo xs,
     optimizeCenter E Sc self sliceNo (Some (Array xs)) histMin histMax tol filterSigma
     = (Raise ValueError, initial_state self)) /\
  st_trace (initial_state self) = [].
Proof.
  cbv zeta. split_and!; try reflexivity.
  - intros args s. apply optimizeCenter_setup_defaults.
  - intros n inCenter Hn. now apply optimizeCenter_sliceNo_error.
  - intros sliceNo xs. apply optimizeCenter_inCenter_error.
Qed.

Lemma optimizeCenter_validation_witness :
  (Z.of_nat (snd (fst (shape3 (data (stack_at 2))))) < 3)%Z /\
  optimizeCenter echo_engine two_point_search (stack_at 2) (Some 3%Z) None None None
    (1 / 2) 2
  = (Raise ValueError, initial_state (stack_at 2)).
Proof.
  split; [reflexivity|].
  apply (optimizeCenter_validation echo_engine two_point_search (stack_at 2)
           None None (1 / 2) 2). reflexivity.
Defined.

(** Five pixels: the start of the search is 2, not two and a half. *)
Lemma optimizeCenter_inCenter_default_floor :
  check_inCenter (snd (shape3 stack_1x1x5)) None = Ok 2 /\ (2 : R) <> 5 / 2.
Proof. split; [reflexivity | lra]. Qed.

Lemma search_result_not_last_center :
  let out := optimizeCenter echo_engine two_point_search (stack_at 2)
               (Some 0%Z) (Some (Scalar 5)) (Some 0) (Some 10) (1 / 2) 2 in
  fst out = Ok 5 /\ center (st_self (snd out)) = 5 + 1.
Proof.
  cbv zeta. rewrite optimizeCenter_unfold.
  rewrite (optimizeCenter_setup_run echo_engine (Some 0%Z) (Some (Scalar 5))
             (Some 0) (Some 10) (initial_state (stack_at 2)) 0%Z 5 2 2 [[2]])
    by reflexivity.
  cbn [bound_or]. unfold minimize.
  destruct (entropy_cost_ok two_point_search [[5]] 0 10 2) as [v1 Hv1]; [lra|].
  destruct (entropy_cost_ok two_point_search [[5 + 1]] 0 10 2) as [v2 Hv2]; [lra|].
  erewrite bindM_Ok; cycle 1.
  { rewrite (costFunc_run _ _ _ _ _ _ _ _ [[5]]) by reflexivity.
    rewrite Hv1. reflexivity. }
  cbn [minimize_loop maxfev two_point_search propose].
  erewrite bindM_Ok; cycle 1.
  { rewrite (costFunc_run _ _ _ _ _ _ _ _ [[5 + 1]]) by reflexivity.
    rewrite Hv2. reflexivity. }
  cbn [res_x]. split; reflexivity.
Qed.

(** C9: whatever the engine and the search do, [optimizeCenter] leaves
    the arrays of the stack object ([data], [white], [dark], [angles]) as
    they were; when it returns, the last evaluation of the cost has set
    [center] to the candidate it evaluated. That candidate need not be
    the value returned: a search that evaluates 5 and then 6 and answers
    5 leaves the centre at 6. *)
Theorem optimizeCenter_frame :
  (forall (E : Engine) (Sc : Scipy) (self : read) (sliceNo : option Z)
          (inCenter : option pyval) (histMin histMax : option R) (tol filterSigma : R),
     let out := optimizeCenter E Sc self sliceNo inCenter histMin histMax tol filterSigma in
     data (st_self (snd out)) = data self /\
     white (st_self (snd out)) = white self /\
     dark (st_self (snd out)) = dark self /\
     angles (st_self (snd out)) = angles self /\
     (forall x, fst out = Ok x ->
        exists tr c sliceNo',
          st_trace (snd out) = tr ++ [Evaluate c; Reconstruct c sliceNo'] /\
          center (st_self (snd out)) = c)) /\
  (let out := optimizeCenter echo_engine two_point_search (stack_at 2)
                (Some 0%Z) (Some (Scalar 5)) (Some 0) (Some 10) (1 / 2) 2 in
   fst out = Ok 5 /\ center (st_self (snd out)) = 5 + 1 /\ (5 + 1 : R) <> 5).
Proof.
  split.
  - intros E Sc self sliceNo inCenter histMin histMax tol filterSigma out.
    destruct (optimizeCenter_frame_all E Sc self sliceNo inCenter histMin histMax
                tol filterSigma) as [(Hd & Hw & Hk & Ha) Hl].
    fold out in Hd, Hw, Hk, Ha, Hl. split_and!; try done.
  - cbv zeta. destruct search_result_not_last_center as [H1 H2].
    split_and!; [exact H1 | exact H2 | lra].
Qed.

(** * More on [removeRings] *)

(** The body of the outer loop reads the stack through its shape and the
    slice it starts from only. *)
Lemma removeRings_locals_ext (w : Wavelet) (level : nat) (sigma : R)
    (d1 d2 : stack3) (m0 : nat) :
  shape3 d1 = shape3 d2 -> getslice m0 d1 = getslice m0 d2 ->
  removeRings_locals w level sigma d1 m0 = removeRings_locals w level sigma d2 m0.
Proof. intros Hs Hg. unfold removeRings_locals. now rewrite Hs, Hg. Qed.

Section OnlySlice0.
Variable w : Wavelet.
Hypothesis laws : pywt_shapes w.
Variables (nP nS nX : nat).
Hypothesis nP_pos : (0 < nP)%nat.
Hypothesis nX_pos : (0 < nX)%nat.

Lemma removeRings_prefix (level : nat) (sigma : R) (data : stack3) (k : nat) :
  rect3 nP nS nX data -> (k <= nS)%nat ->
  exists d,
    for_each (removeRings_slice w (S level) sigma) (seq 0 k) data = Ok d /\
    rect3 nP nS nX d /\
    (forall m, (1 <= m \/ k <= m)%nat -> getslice m d = getslice m data) /\
    (forall k', k = S k' ->
       exists st, removeRings_locals w (S level) sigma data k' = Ok st /\
                  getslice 0 d = loc_nim st).
Proof.
  intros Hd. induction k as [|k IH]; intros Hk.
  - exists data. split_and!; try done.
  - destruct IH as (d & Hrun & Hrd & Hsl & _); [lia|].
    rewrite for_each_snoc, Hrun, bind_Ok, removeRings_slice_index.
    assert (HnS : (0 < nS)%nat) by lia.
    rewrite (removeRings_locals_ext w (S level) sigma d data k).
    2:{ now rewrite (shape3_rect nP nS nX d), (shape3_rect nP nS nX data). }
    2:{ apply Hsl. lia. }
    destruct (removeRings_locals_ok w laws nP nS nX nP_pos nX_pos (S level) sigma data k Hd)
      as (st & Hst & Hnim); [lia|].
    rewrite Hst, bind_Ok. rewrite (setslice_exact nP nS nX) by done.
    eexists. split; [reflexivity|]. split_and!.
    + now apply rect3_imap_insert.
    + intros m Hm. destruct (decide (m = 0%nat)) as [->|Hne]; [lia|].
      rewrite getslice_imap_insert_ne by done. apply Hsl. lia.
    + intros k' [= <-]. exists st. split; [done|].
      apply (getslice_imap_insert_eq nP nS nX); [done | apply Hnim | done].
Qed.

End OnlySlice0.



(** The reconstruction loop leaves the detail sub-bands as they are. *)
Lemma reconstruct_body_bands (w : Wavelet) (j : nat) (t t' : locals) :
  reconstruct_body w j t = Ok t' ->
  loc_cH t' = loc_cH t /\ loc_cV t' = loc_cV t /\ loc_cD t' = loc_cD t.
Proof.
  unfold reconstruct_body.
  destruct (getitem (loc_cH t) j); simpl; [|done].
  destruct (getitem (loc_cV t) j); simpl; [|done].
  destruct (getitem (loc_cD t) j); simpl; [|done].
  destruct (idwt2 w _); simpl; [|done].
  now intros [= <-].
Qed.

Lemma reconstruct_loop_bands (w : Wavelet) (idx : list nat) :
  forall t t', for_each (reconstruct_body w) idx t = Ok t' ->
  loc_cH t' = loc_cH t /\ loc_cV t' = loc_cV t /\ loc_cD t' = loc_cD t.
Proof.
  induction idx as [|j idx IH]; intros t t'; simpl.
  - now intros [= <-].
  - destruct (reconstruct_body w j t) as [t1|e] eqn:E; simpl; [|done].
    intros H. apply IH in H. apply reconstruct_body_bands in E.
    destruct H as (-> & -> & ->). exact E.
Qed.

(** Every level is decomposed: when line 374 is reached the three lists
    hold [level] sub-bands each, of the sizes pywt gives them. *)
Lemma removeRings_locals_bands (w : Wavelet) (nP nS nX : nat) (level : nat) (sigma : R)
    (data : stack3) (m0 : nat) (st : locals) :
  pywt_shapes w -> (0 < nP)%nat -> (0 < nX)%nat ->
  rect3 nP nS nX data -> (m0 < nS)%nat ->
  removeRings_locals w level sigma data m0 = Ok st ->
  pyramid_ok w nP nX level (loc_cH st) /\ pyramid_ok w nP nX level (loc_cV st) /\
  pyramid_ok w nP nX level (loc_cD st).
Proof.
  intros laws HP HX Hd Hm. unfold removeRings_locals.
  edestruct (decompose_ok w laws nP nX HP HX level) as (st1 & -> & Him & HH & HV & HD);
    [ simpl; eapply rect_getslice; eauto | reflexivity | reflexivity | reflexivity | ].
  rewrite bind_Ok.
  destruct (damp_loop_ok w laws nP nX HP HX sigma level level st1)
    as (st2 & -> & Eim & EH & ED & HV'); [lia | done |].
  rewrite bind_Ok.
  destruct (for_each (reconstruct_body w) _ _) as [st3|e] eqn:E3; [|done].
  rewrite bind_Ok. apply reconstruct_loop_bands in E3. cbn [loc_cH loc_cV loc_cD] in E3.
  destruct E3 as (E3H & E3V & E3D).
  destruct (shape3 data) as [[p s] x]. intros [= <-]. cbn [loc_cH loc_cV loc_cD].
  rewrite E3H, E3V, E3D, EH, ED. now split_and!.
Qed.



(** * A sub-band with no detail *)

Lemma Cmul_zero_l (z : C) : Cmul Czero z = Czero.
Proof. unfold Cmul, Czero. simpl. f_equal; ring. Qed.

Lemma Cscal_zero_r (x : R) : Cscal x Czero = Czero.
Proof. unfold Cscal, Czero. simpl. f_equal; ring. Qed.

Lemma Csum_zero {A} (f : A -> C) (l : list A) :
  (forall n, f n = Czero) -> Csum (map f l) = Czero.
Proof.
  intros H. induction l as [|n l IH]; [reflexivity|].
  cbn [map Csum foldr]. fold (Csum (map f l)). rewrite IH, H.
  unfold Cadd, Czero. simpl. f_equal; ring.
Qed.

Lemma entry_all_zero (a : list (list C)) (i j : nat) :
  Forall (Forall (fun z => z = Czero)) a -> entry Czero a i j = Czero.
Proof.
  intros H. unfold entry.
  destruct (nth_in_or_default i a []) as [Hin | ->]; [|now destruct j].
  rewrite Forall_forall in H. apply list_elem_of_In, H in Hin.
  destruct (nth_in_or_default j (nth i a []) Czero) as [Hj | ->]; [|reflexivity].
  rewrite Forall_forall in Hin. now apply Hin, list_elem_of_In.
Qed.

Lemma dft_axis0_zero (sgn : R) (a : list (list C)) :
  Forall (Forall (fun z => z = Czero)) a ->
  Forall (Forall (fun z => z = Czero)) (dft_axis0 sgn a).
Proof.
  intros H. unfold dft_axis0. destruct (shape2 a) as [my mx].
  apply Forall_forall. intros row Hrow. apply list_elem_of_In, in_map_iff in Hrow.
  destruct Hrow as (k & <- & _).
  apply Forall_forall. intros z Hz. apply list_elem_of_In, in_map_iff in Hz.
  destruct Hz as (c & <- & _).
  apply Csum_zero. intros n. rewrite entry_all_zero by done. apply Cmul_zero_l.
Qed.

Lemma Forall2_map_roll {A} (P : A -> Prop) (s t : nat) (a : list (list A)) :
  Forall (Forall P) a -> Forall (Forall P) (roll s (map (roll t) a)).
Proof.
  intros H. apply Forall_roll. apply Forall_forall. intros row Hrow.
  apply list_elem_of_In, in_map_iff in Hrow. destruct Hrow as (r0 & <- & Hr0).
  apply Forall_roll. rewrite Forall_forall in H. now apply H, list_elem_of_In.
Qed.

Lemma fftshift_zero {A} (P : A -> Prop) (a : list (list A)) :
  Forall (Forall P) a -> Forall (Forall P) (fftshift a).
Proof. intros H. unfold fftshift. destruct (shape2 a). now apply Forall2_map_roll. Qed.

Lemma ifftshift_zero {A} (P : A -> Prop) (a : list (list A)) :
  Forall (Forall P) a -> Forall (Forall P) (ifftshift a).
Proof. intros H. unfold ifftshift. destruct (shape2 a). now apply Forall2_map_roll. Qed.

Lemma multiply_zero (a : list (list C)) (b : matrix) :
  Forall (Forall (fun z => z = Czero)) a ->
  Forall (Forall (fun z => z = Czero)) (multiply a b).
Proof.
  intros H. unfold multiply. revert b.
  induction H as [|row a Hrow _ IH]; intros [|brow b]; simpl; try constructor.
  - clear IH. revert brow. induction Hrow as [|z row Hz _ IHr]; intros [|x brow];
      simpl; try constructor.
    + subst z. apply Cscal_zero_r.
    + apply IHr.
  - apply IH.
Qed.

Lemma damp_band_all_zero (sigma : R) (band : matrix) :
  Forall (Forall (fun x => x = 0)) band ->
  Forall (Forall (fun x => x = 0)) (damp_band sigma band).
Proof.
  intros H. unfold damp_band.
  assert (H1 : Forall (Forall (fun z => z = Czero)) (fftshift (fft0 band))).
  { apply fftshift_zero. unfold fft0. apply dft_axis0_zero.
    apply Forall_forall. intros row Hrow. apply list_elem_of_In, in_map_iff in Hrow.
    destruct Hrow as (r0 & <- & Hr0). rewrite Forall_forall in H.
    apply list_elem_of_In, H in Hr0.
    apply Forall_forall. intros z Hz. apply list_elem_of_In, in_map_iff in Hz.
    destruct Hz as (x & <- & Hx). rewrite Forall_forall in Hr0.
    apply list_elem_of_In, Hr0 in Hx. now subst x. }
  destruct (shape2 (fftshift (fft0 band))) as [my mx].
  unfold real, ifft0.
  apply Forall_forall. intros row Hrow. apply list_elem_of_In, in_map_iff in Hrow.
  destruct Hrow as (r0 & <- & Hr0). apply in_map_iff in Hr0.
  destruct Hr0 as (r1 & <- & Hr1).
  pose proof (dft_axis0_zero 1 _ (ifftshift_zero _ _ (multiply_zero _
                (transpose (tile (damp sigma my) mx)) H1))) as H2.
  rewrite Forall_forall in H2. apply list_elem_of_In, H2 in Hr1.
  apply Forall_forall. intros x Hx. apply list_elem_of_In, in_map_iff in Hx.
  destruct Hx as (z & <- & Hz). apply in_map_iff in Hz. destruct Hz as (z0 & <- & Hz0).
  rewrite Forall_forall in Hr1. apply list_elem_of_In, Hr1 in Hz0. subst z0.
  simpl. ring.
Qed.

Lemma all_zero_replicate (r c : nat) (a : matrix) :
  rect r c a -> Forall (Forall (fun x => x = 0)) a -> a = replicate r (replicate c 0).
Proof.
  intros [Hr Hc] Hz. subst r. induction a as [|row a IH]; [reflexivity|].
  inversion Hc as [|? ? Hrow Hrest]; subst. inversion Hz as [|? ? Hzrow Hzrest]; subst.
  cbn [length replicate]. f_equal; [|now apply IH].
  clear -Hzrow. induction Hzrow as [|x row Hx _ IHr]; [reflexivity|].
  subst x. cbn [length replicate]. now f_equal.
Qed.

(** Damping leaves a sub-band of zeros as it is. *)
Lemma damp_band_zeros (sigma : R) (r c : nat) :
  (0 < r)%nat -> (0 < c)%nat ->
  damp_band sigma (replicate r (replicate c 0)) = replicate r (replicate c 0).
Proof.
  intros Hr Hc. apply all_zero_replicate.
  - apply rect_damp_band; try done. split; [apply length_replicate|].
    apply Forall_replicate, length_replicate.
  - apply damp_band_all_zero. apply Forall_replicate. now apply Forall_replicate.
Qed.

Lemma ones_3x4x4_rect : rect3 3 4 4 ones_3x4x4.
Proof. split; [reflexivity|]. repeat constructor. Qed.

Lemma ones_3x4x4_slice (m0 : nat) :
  (m0 < 4)%nat -> getslice m0 ones_3x4x4 = replicate 3 (replicate 4 1).
Proof.
  intros H. do 4 (destruct m0 as [|m0]; [reflexivity|]). lia.
Qed.

(** One iteration on the stack of ones, for a wavelet that finds no
    vertical detail in the slice of ones and gives the slice back from
    what it decomposed it to. *)
Lemma removeRings_slice_ones (w : Wavelet) (sigma : R) (cA cH cD a : matrix)
    (r c m0 : nat) :
  (0 < r)%nat -> (0 < c)%nat ->
  dwt2 w (replicate 3 (replicate 4 1))
  = Ok (cA, (cH, replicate r (replicate c 0), cD)) ->
  idwt2 w (crop (fst (shape2 cH)) (snd (shape2 cH)) cA,
           (cH, replicate r (replicate c 0), cD)) = Ok a ->
  crop 3 4 a = replicate 3 (replicate 4 1) ->
  (m0 < 4)%nat ->
  removeRings_slice w 1 sigma m0 ones_3x4x4 = Ok ones_3x4x4.
Proof.
  intros Hr Hc Hdwt Hidwt Hcrop Hm. rewrite removeRings_slice_index.
  unfold removeRings_locals. rewrite (ones_3x4x4_slice m0 Hm).
  cbn [seq for_each reverse rev_append]. unfold decompose_body at 1.
  cbn [loc_im loc_cH loc_cV loc_cD loc_m loc_nim].
  rewrite Hdwt. step_bind. cbn [app].
  unfold damp_body. cbn [loc_im loc_cH loc_cV loc_cD loc_m loc_nim].
  unfold getitem at 1. cbn [lookup list_lookup]. step_bind.
  rewrite damp_band_zeros by done. cbn [insert list_insert].
  unfold reconstruct_body. cbn [loc_im loc_cH loc_cV loc_cD loc_m loc_nim].
  unfold getitem. cbn [lookup list_lookup]. step_bind.
  rewrite Hidwt. step_bind.
  change (shape3 ones_3x4x4) with (3%nat, 4%nat, 4%nat). cbn beta iota. step_bind.
  cbn [loc_nim]. rewrite Hcrop.
  rewrite (setslice_exact 3 4 4 0 _ ones_3x4x4 ones_3x4x4_rect);
    [| lia | lia | split; [reflexivity | repeat constructor]].
  reflexivity.
Qed.

(** C8: the stack of 3 projections, 4 slices and 4 pixels that is 1
    everywhere, one level and any [sigma]. For a wavelet, such as 'db10',
    that finds no vertical detail in a constant slice and gives the slice
    back from what it decomposed it to, [removeRings] returns the stack as
    it was. *)
Theorem removeRings_constant_stack (db10 : Wavelet) (sigma : R)
    (cA cH cD a : matrix) (r c : nat) :
  (0 < r)%nat -> (0 < c)%nat ->
  dwt2 db10 (replicate 3 (replicate 4 1))
  = Ok (cA, (cH, replicate r (replicate c 0), cD)) ->
  idwt2 db10 (crop (fst (shape2 cH)) (snd (shape2 cH)) cA,
              (cH, replicate r (replicate c 0), cD)) = Ok a ->
  crop 3 4 a = replicate 3 (replicate 4 1) ->
  removeRings db10 1 sigma ones_3x4x4 = Ok ones_3x4x4.
Proof.
  intros Hr Hc Hdwt Hidwt Hcrop. unfold removeRings.
  change (shape3 ones_3x4x4) with (3%nat, 4%nat, 4%nat). cbn [fst snd].
  apply for_each_fixed, Forall_forall. intros m0 Hin.
  apply list_elem_of_In, in_seq in Hin.
  apply (removeRings_slice_ones db10 sigma cA cH cD a r c); (done || lia).
Qed.

Lemma haar_dwt2_ones_3x4 :
  dwt2 haar (replicate 3 (replicate 4 1))
  = Ok ([[2; 2]; [2; 2]],
        ([[0; 0]; [0; 0]], replicate 2 (replicate 2 0), [[0; 0]; [0; 0]])).
Proof.
  cbn [dwt2 haar replicate]. unfold haar_dwt2, haar_block, shape2, entry, dwt_coeff_len.
  cbn [length hd Nat.eqb orb seq map nth Nat.add Nat.mul Nat.sub Nat.div Nat.divmod
       fst snd Nat.min].
  repeat (f_equal; try lra).
Qed.

Lemma haar_idwt2_ones_3x4 :
  exists a,
    idwt2 haar (crop (fst (shape2 [[0; 0]; [0; 0]])) (snd (shape2 [[0; 0]; [0; 0]]))
                     [[2; 2]; [2; 2]],
                ([[0; 0]; [0; 0]], replicate 2 (replicate 2 0), [[0; 0]; [0; 0]])) = Ok a /\
    crop 3 4 a = replicate 3 (replicate 4 1).
Proof.
  eexists. split; [reflexivity|].
  unfold crop, entry, idwt_len.
  cbn [length hd seq map nth take replicate Nat.add Nat.mul Nat.sub Nat.div Nat.divmod
       fst snd Nat.even shape2].
  repeat (f_equal; try lra).
Qed.

Lemma removeRings_constant_stack_witness :
  (0 < 2)%nat /\
  dwt2 haar (replicate 3 (replicate 4 1))
  = Ok ([[2; 2]; [2; 2]],
        ([[0; 0]; [0; 0]], replicate 2 (replicate 2 0), [[0; 0]; [0; 0]])) /\
  removeRings haar 1 2 ones_3x4x4 = Ok ones_3x4x4.
Proof.
  split; [lia|]. split; [exact haar_dwt2_ones_3x4|].
  destruct haar_idwt2_ones_3x4 as (a & Hidwt & Hcrop).
  apply (removeRings_constant_stack haar 2 [[2; 2]; [2; 2]] [[0; 0]; [0; 0]]
           [[0; 0]; [0; 0]] a 2 2); try lia.
  - exact haar_dwt2_ones_3x4.
  - exact Hidwt.
  - exact Hcrop.
Defined.

(** * More on [optimizeCenter] *)

Lemma foldl_Rmin_le (l : list R) :
  forall x, foldl Rmin x l <= x /\ Forall (fun y => foldl Rmin x l <= y) l.
Proof.
  induction l as [|y l IH]; intros x; simpl.
  - split; [lra | constructor].
  - destruct (IH (Rmin x y)) as [H1 H2].
    pose proof (Rmin_l x y). pose proof (Rmin_r x y).
    split; [lra|]. constructor; [lra | exact H2].
Qed.

Lemma foldl_Rmax_ge (l : list R) :
  forall x, x <= foldl Rmax x l /\ Forall (fun y => y <= foldl Rmax x l) l.
Proof.
  induction l as [|y l IH]; intros x; simpl.
  - split; [lra | constructor].
  - destruct (IH (Rmax x y)) as [H1 H2].
    pose proof (Rmax_l x y). pose proof (Rmax_r x y).
    split; [lra|]. constructor; [lra | exact H2].
Qed.

Lemma np_min_le (a : list R) (m : R) :
  np_min a = Ok m -> Forall (fun x => m <= x) a.
Proof.
  destruct a as [|x a]; [discriminate|]. intros [= <-].
  destruct (foldl_Rmin_le a x) as [H1 H2]. now constructor.
Qed.

Lemma np_max_ge (a : list R) (m : R) :
  np_max a = Ok m -> Forall (fun x => x <= m) a.
Proof.
  destruct a as [|x a]; [discriminate|]. intros [= <-].
  destruct (foldl_Rmax_ge a x) as [H1 H2]. now constructor.
Qed.

Lemma default_histMin_le (img : matrix) (lo : R) :
  default_histMin None img = Ok lo -> Forall (fun x => lo <= x) (concat img).
Proof.
  unfold default_histMin.
  destruct (np_min (concat img)) as [mn|e] eqn:E; [|discriminate].
  rewrite bind_Ok. intros [= <-]. apply np_min_le in E.
  eapply Forall_impl; [exact E|]. intros x Hx. cbn beta in *.
  destruct (Rlt_dec mn 0); [lra|]. destruct (Rge_dec mn 0); lra.
Qed.

Lemma default_histMax_ge (img : matrix) (hi : R) :
  default_histMax None img = Ok hi -> Forall (fun x => x <= hi) (concat img).
Proof.
  unfold default_histMax.
  destruct (np_max (concat img)) as [mx|e] eqn:E; [|discriminate].
  rewrite bind_Ok. intros [= <-]. apply np_max_ge in E.
  eapply Forall_impl; [exact E|]. intros x Hx. cbn beta in *.
  destruct (Rlt_dec mx 0); [lra|]. destruct (Rge_dec mx 0); lra.
Qed.

(** When neither bound is given, the bounds [optimizeCenter] derives
    enclose every pixel of the image they are derived from. *)
Theorem optimizeCenter_derived_bounds (E : Engine) (self : read)
    (sliceNo : option Z) (inCenter : option pyval)
    (sliceNo' : Z) (x0 lo hi : R) (s : ostate) :
  optimizeCenter_setup E sliceNo inCenter None None (initial_state self)
  = (Ok (sliceNo', x0, lo, hi), s) ->
  Forall (fun x => lo <= x <= hi) (concat (st_recon s)).
Proof.
  rewrite optimizeCenter_setup_unfold. cbn [initial_state st_self].
  destruct (check_sliceNo _ sliceNo) as [sl|e]; [|discriminate].
  destruct (check_inCenter _ inCenter) as [c|e]; [|discriminate].
  destruct (run E self sl) as [probe|e]; [|discriminate].
  destruct (default_histMin None probe) as [lo'|e] eqn:Hlo; [|discriminate].
  destruct (default_histMax None probe) as [hi'|e] eqn:Hhi; [|discriminate].
  intros [= _ _ <- <- <-]. cbn [probed st_recon].
  apply default_histMin_le in Hlo. apply default_histMax_ge in Hhi.
  rewrite Forall_forall in Hlo. rewrite Forall_forall in Hhi.
  apply Forall_forall. intros x Hx. split; [now apply Hlo | now apply Hhi].
Qed.

Lemma optimizeCenter_derived_bounds_witness :
  Forall (fun x => (1 / 2) * 2 <= x <= 2 * 2)
         (concat (st_recon (probed (initial_state (stack_at 2)) 0 [[2]]))).
Proof.
  apply (optimizeCenter_derived_bounds echo_engine (stack_at 2) (Some 0%Z)
           (Some (Scalar 5)) 0%Z 5).
  rewrite (optimizeCenter_setup_run echo_engine (Some 0%Z) (Some (Scalar 5)) None None
             (initial_state (stack_at 2)) 0%Z 5 2 2 [[2]]) by reflexivity.
  cbn [bound_or]. destruct (Rlt_dec 2 0); [lra|reflexivity].
Defined.

(** The check of [sliceNo] is [sliceNo > numSlices]: an index up to and
    including the number of slices, one past the last slice, and any
    negative one, is handed to the engine. *)
Theorem optimizeCenter_sliceNo_accepted (E : Engine) (self : read) (n : Z)
    (inCenter : option R) (histMin histMax : option R) :
  (n <= Z.of_nat (snd (fst (shape3 (data self)))))%Z ->
  st_trace (snd (optimizeCenter_setup E (Some n) (Scalar <$> inCenter) histMin histMax
                   (initial_state self)))
  = [Reconstruct (center self) n].
Proof.
  intros Hn. rewrite optimizeCenter_setup_unfold. cbn [initial_state st_self].
  unfold check_sliceNo.
  destruct (Z.ltb_spec (Z.of_nat (snd (fst (shape3 (data self))))) n) as [Hlt|_]; [lia|].
  assert (Hc : exists x0, check_inCenter (snd (shape3 (data self))) (Scalar <$> inCenter)
                          = Ok x0) by (destruct inCenter; simpl; eauto).
  destruct Hc as [x0 ->].
  destruct (run E self n) as [probe|e]; [|reflexivity].
  destruct (default_histMin histMin probe); [|reflexivity].
  destruct (default_histMax histMax probe); reflexivity.
Qed.

Lemma optimizeCenter_sliceNo_accepted_witness :
  (2 <= Z.of_nat (snd (fst (shape3 (data (stack_at 2))))))%Z /\
  st_trace (snd (optimizeCenter_setup echo_engine (Some 2%Z) (Scalar <$> None) None None
                   (initial_state (stack_at 2))))
  = [Reconstruct (center (stack_at 2)) 2].
Proof.
  assert (H : (2 <= Z.of_nat (snd (fst (shape3 (data (stack_at 2))))))%Z)
    by (vm_compute; discriminate).
  split; [exact H|].
  exact (optimizeCenter_sliceNo_accepted echo_engine (stack_at 2) 2 None None None H).
Defined.

Lemma entropy_cost_bad_range (Sc : Scipy) (img : matrix) (lo hi fs : R) :
  hi < lo -> entropy_cost Sc img lo hi fs = Raise ValueError.
Proof.
  intros H. unfold entropy_cost, np_histogram.
  destruct (Rlt_dec hi lo); [reflexivity | contradiction].
Qed.

(** Bounds given the wrong way round are not checked at the call: the
    slice is reconstructed at the centre of the stack and again at the
    start of the search, and the histogram of the first evaluation raises,
    the centre of the stack being by then the start of the search. *)
Theorem optimizeCenter_bad_range (E : Engine) (Sc : Scipy) (self : read)
    (sliceNo : option Z) (inCenter : option pyval) (histMin histMax tol fs : R)
    (sliceNo' : Z) (x0 : R) (probe img : matrix) :
  histMax < histMin ->
  check_sliceNo (snd (fst (shape3 (data self)))) sliceNo = Ok sliceNo' ->
  check_inCenter (snd (shape3 (data self))) inCenter = Ok x0 ->
  run E self sliceNo' = Ok probe ->
  run E (set_center x0 self) sliceNo' = Ok img ->
  exists e,
    optimizeCenter E Sc self sliceNo inCenter (Some histMin) (Some histMax) tol fs
    = (Raise e,
       {| st_self := set_center x0 self; st_recon := img;
          st_trace := [Reconstruct (center self) sliceNo'; Evaluate x0;
                       Reconstruct x0 sliceNo'] |}).
Proof.
  intros Hlt Hs Hc Hprobe Hrun. exists ValueError.
  rewrite optimizeCenter_unfold, optimizeCenter_setup_unfold.
  cbn [initial_state st_self]. rewrite Hs, Hc, Hprobe.
  cbn [default_histMin default_histMax]. unfold minimize.
  apply bindM_Raise.
  rewrite (costFunc_run E Sc x0 sliceNo' histMin histMax fs _ img) by exact Hrun.
  now rewrite entropy_cost_bad_range.
Qed.

Lemma optimizeCenter_bad_range_witness :
  0 < 1 /\
  exists e,
    optimizeCenter echo_engine two_point_search (stack_at 2) (Some 0%Z)
      (Some (Scalar 5)) (Some 1) (Some 0) (1 / 2) 2
    = (Raise e,
       {| st_self := set_center 5 (stack_at 2); st_recon := [[5]];
          st_trace := [Reconstruct (center (stack_at 2)) 0; Evaluate 5;
                       Reconstruct 5 0] |}).
Proof.
  split; [lra|].
  apply (optimizeCenter_bad_range echo_engine two_point_search (stack_at 2) (Some 0%Z)
           (Some (Scalar 5)) 1 0 (1 / 2) 2 0%Z 5 [[2]] [[5]]); (lra || reflexivity).
Defined.

Lemma costFunc_trace (E : Engine) (Sc : Scipy) (c : R) (sliceNo : Z)
    (lo hi fs : R) (s : ostate) :
  st_trace (snd (_costFunc E Sc c sliceNo lo hi fs s))
  = st_trace s ++ evals_trace sliceNo [c].
Proof. destruct (costFunc_state E Sc c sliceNo lo hi fs s) as [img ->]. reflexivity. Qed.

Lemma evals_trace_app (sliceNo : Z) (cs1 cs2 : list R) :
  evals_trace sliceNo (cs1 ++ cs2) = evals_trace sliceNo cs1 ++ evals_trace sliceNo cs2.
Proof. unfold evals_trace. now rewrite map_app, concat_app. Qed.

Lemma minimize_loop_trace (E : Engine) (Sc : Scipy) (sliceNo : Z) (lo hi fs : R)
    (tol x0 : R) (fuel : nat) :
  forall (evals : list (R * R)) (s : ostate),
  exists cs,
    (length cs <= fuel)%nat /\
    st_trace (snd (minimize_loop Sc (fun c => _costFunc E Sc c sliceNo lo hi fs)
                                 tol x0 fuel evals s))
    = st_trace s ++ evals_trace sliceNo cs.
Proof.
  induction fuel as [|fuel IH]; intros evals s; simpl.
  - exists []. split; [simpl; lia|]. now rewrite app_nil_r.
  - destruct (propose Sc tol x0 evals) as [c|].
    2:{ exists []. split; [simpl; lia|]. simpl. now rewrite app_nil_r. }
    pose proof (costFunc_trace E Sc c sliceNo lo hi fs s) as Htr.
    unfold bindM.
    destruct (_costFunc E Sc c sliceNo lo hi fs s) as [[y|e] s']; cbn [snd] in *.
    + destruct (IH ((c, y) :: evals) s') as (cs & Hlen & Hcs).
      exists (c :: cs). split; [simpl; lia|].
      rewrite Hcs, Htr, <- app_assoc. reflexivity.
    + exists [c]. split; [simpl; lia | exact Htr].
Qed.

(** A call that returns has reconstructed one slice only: once at the
    centre the stack had, then once for each evaluation of the cost, at
    the candidate evaluated, the first of them the start of the search. *)
Theorem optimizeCenter_trace (E : Engine) (Sc : Scipy) (self : read)
    (sliceNo : option Z) (inCenter : option pyval) (histMin histMax : option R)
    (tol fs x : R) (s : ostate) :
  optimizeCenter E Sc self sliceNo inCenter histMin histMax tol fs = (Ok x, s) ->
  exists sliceNo' x0 cs,
    check_sliceNo (snd (fst (shape3 (data self)))) sliceNo = Ok sliceNo' /\
    check_inCenter (snd (shape3 (data self))) inCenter = Ok x0 /\
    st_trace s = Reconstruct (center self) sliceNo' :: evals_trace sliceNo' (x0 :: cs).
Proof.
  rewrite optimizeCenter_unfold, optimizeCenter_setup_unfold.
  cbn [initial_state st_self].
  destruct (check_sliceNo _ sliceNo) as [sl|e]; [|discriminate].
  destruct (check_inCenter _ inCenter) as [x0|e]; [|discriminate].
  destruct (run E self sl) as [probe|e]; [|discriminate].
  destruct (default_histMin histMin probe) as [lo|e]; [|discriminate].
  destruct (default_histMax histMax probe) as [hi|e]; [|discriminate].
  unfold minimize, bindM.
  pose proof (costFunc_trace E Sc x0 sl lo hi fs
                (probed {| st_self := self; st_recon := []; st_trace := [] |} sl probe))
    as Htr.
  destruct (_costFunc E Sc x0 sl lo hi fs _) as [[y|e] s1]; [|discriminate].
  cbn [snd] in Htr.
  destruct (minimize_loop_trace E Sc sl lo hi fs tol x0 (maxfev Sc) [(x0, y)] s1)
    as (cs & Hlen & Hcs).
  intros Heq. rewrite Heq in Hcs. cbn [snd] in Hcs.
  exists sl, x0, cs. split_and!; try done.
  rewrite Hcs, Htr. cbn [probed st_trace st_self app].
  change (x0 :: cs) with ([x0] ++ cs). now rewrite evals_trace_app.
Qed.

Lemma optimizeCenter_trace_witness :
  exists sliceNo' x0 cs,
    check_sliceNo (snd (fst (shape3 (data (stack_at 2))))) (Some 0%Z) = Ok sliceNo' /\
    check_inCenter (snd (shape3 (data (stack_at 2)))) (Some (Scalar 5)) = Ok x0 /\
    st_trace (snd (optimizeCenter echo_engine two_point_search (stack_at 2)
                     (Some 0%Z) (Some (Scalar 5)) (Some 0) (Some 10) (1 / 2) 2))
    = Reconstruct (center (stack_at 2)) sliceNo' :: evals_trace sliceNo' (x0 :: cs).
Proof.
  destruct search_result_not_last_center as [H1 _].
  apply (optimizeCenter_trace echo_engine two_point_search (stack_at 2)
           (Some 0%Z) (Some (Scalar 5)) (Some 0) (Some 10) (1 / 2) 2 5).
  rewrite <- H1. apply surjective_pairing.
Defined.

(** For a stack as the constructor leaves it and no [sliceNo] and
    [inCenter] given, the reconstruction before the search is of the
    middle slice at the centre the search starts from. *)
Theorem optimizeCenter_fresh_probe (E : Engine) (d w k : stack3)
    (histMin histMax : option R) :
  let numSlices := snd (fst (shape3 d)) in
  let numPixels := snd (shape3 d) in
  check_inCenter numPixels None = Ok (center (__init__ d w k)) /\
  st_trace (snd (optimizeCenter_setup E None None histMin histMax
                   (initial_state (__init__ d w k))))
  = [Reconstruct (IZR (Z.of_nat numPixels / 2)) (Z.of_nat numSlices / 2)].
Proof.
  cbv zeta. split; [reflexivity|].
  rewrite optimizeCenter_setup_unfold.
  cbn [initial_state st_self __init__ data center check_sliceNo check_inCenter].
  destruct (run E _ _) as [probe|e]; [|reflexivity].
  destruct (default_histMin histMin probe); [|reflexivity].
  destruct (default_histMax histMax probe); reflexivity.
Qed.

(** * [normalize] *)

Lemma rect_tabulate2 (r c : nat) (f : nat -> nat -> R) : rect r c (tabulate2 r c f).
Proof. apply (rect_tabulate f). Qed.

Lemma entry_tabulate2 (r c : nat) (f : nat -> nat -> R) (i j : nat) :
  (i < r)%nat -> (j < c)%nat -> entry 0 (tabulate2 r c f) i j = f i j.
Proof.
  intros Hi Hj. unfold entry, tabulate2.
  rewrite (nth_map_lt _ _ _ _ 0%nat) by now rewrite length_seq.
  rewrite seq_nth by done.
  rewrite (nth_map_lt _ _ _ _ 0%nat) by now rewrite length_seq.
  now rewrite seq_nth.
Qed.

Lemma tabulate2_ext (r c : nat) (f g : nat -> nat -> R) :
  (forall i j, (i < r)%nat -> (j < c)%nat -> f i j = g i j) ->
  tabulate2 r c f = tabulate2 r c g.
Proof.
  intros H. unfold tabulate2. apply map_ext_in. intros i Hi. apply in_seq in Hi.
  apply map_ext_in. intros j Hj. apply in_seq in Hj. apply H; lia.
Qed.

Lemma nth_seq_map_id {A} (l : list A) (d : A) :
  map (fun i => nth i l d) (seq 0 (length l)) = l.
Proof.
  apply (list_eq_same_length _ _ (length l)); [done | now rewrite length_map, length_seq |].
  intros i x y Hi Hx Hy. rewrite list_lookup_fmap in Hx.
  rewrite lookup_seq_lt in Hx by done. simpl in Hx.
  rewrite nth_lookup, Hy in Hx. simpl in Hx. congruence.
Qed.

Lemma tabulate2_entry_id (r c : nat) (v : matrix) :
  rect r c v -> tabulate2 r c (entry 0 v) = v.
Proof.
  intros [Hr Hc]. unfold tabulate2, entry. subst r.
  rewrite <- (nth_seq_map_id v []) at 2. apply map_ext_in. intros i Hi. apply in_seq in Hi.
  assert (Hrow : length (nth i v []) = c).
  { rewrite Forall_forall in Hc. apply Hc, list_elem_of_In, nth_In. lia. }
  rewrite <- Hrow. apply nth_seq_map_id.
Qed.

Lemma broadcast_entry_exact (r c : nat) (v : matrix) (i j : nat) :
  rect r c v -> (i < r)%nat -> (j < c)%nat -> broadcast_entry v i j = entry 0 v i j.
Proof.
  intros Hv Hi Hj. unfold broadcast_entry. rewrite (rect_shape2 v r c) by (done || lia).
  destruct (Nat.eqb_spec r 1) as [->|_]; destruct (Nat.eqb_spec c 1) as [->|_];
    repeat f_equal; lia.
Qed.

Lemma broadcast_dim_refl (n : nat) : broadcast_dim n n = Some n.
Proof. unfold broadcast_dim. now rewrite Nat.eqb_refl. Qed.

(** A plane divided by an array of its shape. *)
Lemma np_divide_exact (r c : nat) (a b : matrix) :
  rect r c a -> rect r c b -> (0 < r)%nat ->
  np_divide a b = Ok (tabulate2 r c (fun i j => entry 0 a i j / entry 0 b i j)).
Proof.
  intros Ha Hb Hr. unfold np_divide.
  rewrite (rect_shape2 a r c), (rect_shape2 b r c) by done.
  rewrite !broadcast_dim_refl. f_equal. apply tabulate2_ext. intros i j Hi Hj.
  now rewrite (broadcast_entry_exact r c a), (broadcast_entry_exact r c b).
Qed.

Lemma setplane_exact (nP nS nX m : nat) (v : matrix) (d : stack3) :
  rect3 nP nS nX d -> (m < nP)%nat -> (0 < nS)%nat -> rect nS nX v ->
  setplane m v d = Ok (<[m := v]> d).
Proof.
  intros Hd Hm HS Hv. unfold setplane.
  rewrite (shape3_rect nP nS nX) by (done || lia).
  rewrite (rect_shape2 v nS nX) by done.
  apply Nat.ltb_lt in Hm as ->. cbn [negb]. unfold broadcastable.
  rewrite !Nat.eqb_refl. cbn [orb andb]. do 2 f_equal.
  rewrite <- (tabulate2_entry_id nS nX v Hv) at 2.
  apply tabulate2_ext. intros i j Hi Hj. now apply (broadcast_entry_exact nS nX).
Qed.

Lemma np_mean0_exact (nW nS nX : nat) (w : stack3) :
  rect3 nW nS nX w -> (0 < nW)%nat -> (0 < nS)%nat ->
  np_mean0 w = tabulate2 nS nX (white_mean w).
Proof.
  intros Hw HW HS. unfold np_mean0. rewrite (shape3_rect nW nS nX) by done.
  unfold white_mean. destruct Hw as [-> _]. reflexivity.
Qed.

Section Normalize.
Variables (nP nW nS nX : nat).
Variable w : stack3.
Hypothesis w_rect : rect3 nW nS nX w.
Hypothesis nW_pos : (0 < nW)%nat.
Hypothesis nS_pos : (0 < nS)%nat.

Lemma normalize_body_exact (m : nat) (d : stack3) (plane : matrix) :
  rect3 nP nS nX d -> d !! m = Some plane ->
  normalize_body (np_mean0 w) m d = Ok (<[m := flat_field w nS nX plane]> d).
Proof.
  intros Hd Hm. unfold normalize_body, getitem. rewrite Hm, bind_Ok.
  assert (Hplane : rect nS nX plane).
  { destruct Hd as [_ Hd]. rewrite Forall_forall in Hd.
    eapply Hd, list_elem_of_lookup_2, Hm. }
  rewrite (np_mean0_exact nW nS nX) by done.
  rewrite (np_divide_exact nS nX) by (done || apply rect_tabulate2).
  rewrite bind_Ok.
  replace (tabulate2 nS nX (fun i j => entry 0 plane i j
                                       / entry 0 (tabulate2 nS nX (white_mean w)) i j))
    with (flat_field w nS nX plane).
  2:{ apply tabulate2_ext. intros i j Hi Hj. now rewrite entry_tabulate2. }
  apply (setplane_exact nP nS nX); try done.
  - apply lookup_lt_Some in Hm. destruct Hd as [<- _]. exact Hm.
  - apply rect_tabulate2.
Qed.

Lemma normalize_prefix (d : stack3) (k : nat) :
  rect3 nP nS nX d -> (k <= nP)%nat ->
  for_each (normalize_body (np_mean0 w)) (seq 0 k) d
  = Ok (map (flat_field w nS nX) (take k d) ++ drop k d).
Proof.
  intros Hd. induction k as [|k IH]; intros Hk.
  - simpl. now rewrite drop_0.
  - rewrite for_each_snoc, IH, bind_Ok by lia.
    destruct Hd as [HP Hd].
    destruct (lookup_lt_is_Some_2 d k) as [plane Hplane]; [lia|].
    assert (Hlen : length (map (flat_field w nS nX) (take k d)) = k).
    { rewrite length_map, length_take. lia. }
    rewrite (normalize_body_exact k _ plane).
    + f_equal. rewrite (take_S_r d k plane Hplane), map_app, <- app_assoc.
      rewrite (drop_S d plane k Hplane). simpl.
      rewrite <- Hlen at 1. rewrite insert_app_r_alt by lia.
      rewrite Nat.sub_diag. reflexivity.
    + split.
      * rewrite length_app, Hlen, length_drop. lia.
      * apply Forall_app. split.
        -- apply Forall_forall. intros p Hp. apply list_elem_of_In, in_map_iff in Hp.
           destruct Hp as (q & <- & _). apply rect_tabulate2.
        -- now apply Forall_drop.
    + rewrite lookup_app_r by lia. rewrite Hlen, Nat.sub_diag.
      rewrite lookup_drop. now rewrite Nat.add_0_r.
Qed.

Lemma normalize_run (cutoff : option R) (self : read) :
  white self = w -> rect3 nP nS nX (data self) -> (0 < nP)%nat ->
  normalize cutoff self
  = Ok (set_data (apply_cutoff cutoff (map (flat_field w nS nX) (data self))) self).
Proof.
  intros Hw Hd HP. unfold normalize. rewrite Hw.
  rewrite (shape3_rect nP nS nX) by done. cbn [fst].
  rewrite normalize_prefix by (done || lia). rewrite bind_Ok.
  destruct Hd as [HP' _]. rewrite <- HP', firstn_all, drop_all, app_nil_r.
  reflexivity.
Qed.

Lemma entry3_flat_field (d : stack3) (m s x : nat) :
  (m < length d)%nat -> (s < nS)%nat -> (x < nX)%nat ->
  entry3 (map (flat_field w nS nX) d) m s x = entry3 d m s x / white_mean w s x.
Proof.
  intros Hm Hs Hx. unfold entry3.
  rewrite (nth_map_lt _ _ _ _ []) by done.
  unfold flat_field. now rewrite entry_tabulate2.
Qed.

End Normalize.

Lemma rect3_flat_field (w : stack3) (nP nS nX : nat) (d : stack3) :
  length d = nP -> rect3 nP nS nX (map (flat_field w nS nX) d).
Proof.
  intros Hd. split; [now rewrite length_map|].
  apply Forall_forall. intros p Hp. apply list_elem_of_In, in_map_iff in Hp.
  destruct Hp as (q & <- & _). apply rect_tabulate2.
Qed.

(** With no cutoff, [normalize] keeps the shape of the data and divides
    every value by the mean of the white images at its slice and pixel. *)
Theorem normalize_entries (self : read) (nP nW nS nX : nat) :
  rect3 nP nS nX (data self) -> rect3 nW nS nX (white self) ->
  (0 < nP)%nat -> (0 < nW)%nat -> (0 < nS)%nat ->
  exists d',
    normalize None self = Ok (set_data d' self) /\
    rect3 nP nS nX d' /\
    forall m s x, (m < nP)%nat -> (s < nS)%nat -> (x < nX)%nat ->
      white_mean (white self) s x <> 0 ->
      entry3 d' m s x = entry3 (data self) m s x / white_mean (white self) s x.
Proof.
  intros Hd Hw HP HW HS.
  exists (map (flat_field (white self) nS nX) (data self)). split_and!.
  - now rewrite (normalize_run nP nW nS nX (white self) Hw HW HS None self).
  - apply rect3_flat_field, Hd.
  - intros m s x Hm Hs Hx _. apply entry3_flat_field; try done.
    destruct Hd as [-> _]. exact Hm.
Qed.

Lemma white_2x2x2_rect : rect3 2 2 2 white_2x2x2.
Proof. split; [reflexivity|]. repeat constructor. Qed.

Lemma normalize_entries_witness :
  exists d',
    normalize None stack_with_white = Ok (set_data d' stack_with_white) /\
    rect3 2 2 2 d' /\
    forall m s x, (m < 2)%nat -> (s < 2)%nat -> (x < 2)%nat ->
      white_mean (white stack_with_white) s x <> 0 ->
      entry3 d' m s x
      = entry3 (data stack_with_white) m s x / white_mean (white stack_with_white) s x.
Proof.
  apply (normalize_entries stack_with_white 2 2 2 2 stack_2x2x2_rect white_2x2x2_rect);
    lia.
Defined.

Lemma clip_Rmin (c q : R) : clip c q = Rmin q c.
Proof.
  unfold clip, Rmin. destruct (Rgt_dec q c); destruct (Rle_dec q c); lra.
Qed.

Lemma entry3_apply_cutoff (c : R) (d : stack3) (nP nS nX m s x : nat) :
  rect3 nP nS nX d -> (m < nP)%nat -> (s < nS)%nat -> (x < nX)%nat ->
  entry3 (apply_cutoff (Some c) d) m s x = clip c (entry3 d m s x).
Proof.
  intros [HP Hd] Hm Hs Hx. unfold entry3, entry, apply_cutoff.
  assert (Hplane : rect nS nX (nth m d [])).
  { rewrite Forall_forall in Hd. apply Hd, list_elem_of_In, nth_In. lia. }
  destruct Hplane as [Hrows Hcols].
  assert (Hrow : length (nth s (nth m d []) []) = nX).
  { rewrite Forall_forall in Hcols. apply Hcols, list_elem_of_In, nth_In. lia. }
  rewrite (nth_map_lt _ _ _ _ []) by lia.
  rewrite (nth_map_lt _ _ _ _ []) by lia.
  rewrite (nth_map_lt _ _ _ _ 0) by lia. reflexivity.
Qed.

(** With a cutoff, every value is the smaller of that quotient and the
    cutoff: no value of the data exceeds the cutoff after the call. *)
Theorem normalize_cutoff (self : read) (cutoff : R) (nP nW nS nX : nat) :
  rect3 nP nS nX (data self) -> rect3 nW nS nX (white self) ->
  (0 < nP)%nat -> (0 < nW)%nat -> (0 < nS)%nat ->
  exists d',
    normalize (Some cutoff) self = Ok (set_data d' self) /\
    forall m s x, (m < nP)%nat -> (s < nS)%nat -> (x < nX)%nat ->
      white_mean (white self) s x <> 0 ->
      entry3 d' m s x
      = Rmin (entry3 (data self) m s x / white_mean (white self) s x) cutoff /\
      entry3 d' m s x <= cutoff.
Proof.
  intros Hd Hw HP HW HS.
  exists (apply_cutoff (Some cutoff) (map (flat_field (white self) nS nX) (data self))).
  split.
  - now rewrite (normalize_run nP nW nS nX (white self) Hw HW HS (Some cutoff) self).
  - intros m s x Hm Hs Hx _.
    rewrite (entry3_apply_cutoff cutoff _ nP nS nX) by
      (try done; apply rect3_flat_field, Hd).
    rewrite entry3_flat_field by (try done; destruct Hd as [-> _]; exact Hm).
    rewrite clip_Rmin. split; [reflexivity | apply Rmin_r].
Qed.

Lemma normalize_cutoff_witness :
  exists d',
    normalize (Some 1) stack_with_white = Ok (set_data d' stack_with_white) /\
    forall m s x, (m < 2)%nat -> (s < 2)%nat -> (x < 2)%nat ->
      white_mean (white stack_with_white) s x <> 0 ->
      entry3 d' m s x
      = Rmin (entry3 (data stack_with_white) m s x
              / white_mean (white stack_with_white) s x) 1 /\
      entry3 d' m s x <= 1.
Proof.
  apply (normalize_cutoff stack_with_white 1 2 2 2 2 stack_2x2x2_rect white_2x2x2_rect);
    lia.
Defined.

Lemma shape2_tabulate2 (r c : nat) (f : nat -> nat -> R) :
  (0 < r)%nat -> shape2 (tabulate2 r c f) = (r, c).
Proof. intros Hr. apply rect_shape2; [apply rect_tabulate2 | done]. Qed.

Lemma for_each_first_raise {St} (body : nat -> St -> result St) (n : nat) (s : St)
    (e : exn) :
  (0 < n)%nat -> body 0%nat s = Raise e -> for_each body (seq 0 n) s = Raise e.
Proof. intros Hn H. destruct n; [lia|]. simpl. now rewrite H. Qed.

Lemma broadcast_dim_pos (n1 n2 r : nat) :
  (0 < n1)%nat -> (0 < n2)%nat -> broadcast_dim n1 n2 = Some r -> (0 < r)%nat.
Proof.
  unfold broadcast_dim. intros H1 H2.
  destruct (n1 =? n2)%nat; [intros [= <-]; lia|].
  destruct (n1 =? 1)%nat; [intros [= <-]; lia|].
  destruct (n2 =? 1)%nat; [intros [= <-]; lia | discriminate].
Qed.

(** A quotient that fits the plane it is assigned to comes from a divisor
    whose extents are those of the plane or 1. *)
Lemma broadcast_fits (n n' r : nat) :
  broadcast_dim n n' = Some r -> broadcastable r n = true -> broadcastable n' n = true.
Proof.
  unfold broadcast_dim, broadcastable.
  destruct (Nat.eqb_spec n n') as [->|Hne].
  - intros _ _. now rewrite Nat.eqb_refl.
  - destruct (Nat.eqb_spec n 1) as [->|Hn1].
    + intros [= <-] H. exact H.
    + destruct (Nat.eqb_spec n' 1) as [->|Hn'1]; [|discriminate].
      intros _ _. apply orb_true_r.
Qed.

(** White images whose slice or pixel extent is neither that of the data
    nor 1 make [normalize] raise ValueError. *)
Theorem normalize_shape_error (self : read) (cutoff : option R)
    (nP nS nX nW nS' nX' : nat) :
  rect3 nP nS nX (data self) -> rect3 nW nS' nX' (white self) ->
  (0 < nP)%nat -> (0 < nS)%nat -> (0 < nW)%nat -> (0 < nS')%nat ->
  broadcastable nS' nS && broadcastable nX' nX = false ->
  normalize cutoff self = Raise ValueError.
Proof.
  intros Hd Hw HP HS HW HS' Hbad. unfold normalize.
  rewrite (shape3_rect nP nS nX) by done. cbn [fst].
  rewrite (for_each_first_raise _ nP _ ValueError); [reflexivity | done |].
  unfold normalize_body, getitem.
  destruct (lookup_lt_is_Some_2 (data self) 0) as [plane Hplane];
    [destruct Hd as [-> _]; lia|].
  rewrite Hplane, bind_Ok.
  assert (Hrp : rect nS nX plane).
  { destruct Hd as [_ Hd]. rewrite Forall_forall in Hd.
    eapply Hd, list_elem_of_lookup_2, Hplane. }
  rewrite (np_mean0_exact nW nS' nX') by done.
  unfold np_divide. rewrite (rect_shape2 plane nS nX) by done.
  rewrite shape2_tabulate2 by done.
  destruct (broadcast_dim nS nS') as [r|] eqn:Er; [|reflexivity].
  destruct (broadcast_dim nX nX') as [c|] eqn:Ec; [|reflexivity].
  rewrite bind_Ok. unfold setplane.
  rewrite (shape3_rect nP nS nX) by done.
  rewrite shape2_tabulate2 by (eapply broadcast_dim_pos; [| |exact Er]; done).
  apply Nat.ltb_lt in HP as ->. cbn [negb].
  destruct (broadcastable r nS) eqn:B1; [|reflexivity].
  destruct (broadcastable c nX) eqn:B2; [|reflexivity].
  rewrite (broadcast_fits nS nS' r Er B1), (broadcast_fits nX nX' c Ec B2) in Hbad.
  discriminate.
Qed.

Lemma normalize_shape_error_witness :
  normalize None {| data := stack_2x2x2; white := white_2x3x2; dark := [];
                    center := 1; angles := None |}
  = Raise ValueError.
Proof.
  apply (normalize_shape_error _ None 2 2 2 2 3 2); try lia; try reflexivity.
  - exact stack_2x2x2_rect.
  - split; [reflexivity|]. repeat constructor.
Defined.

Lemma nth_replicate_lt {A} (n i : nat) (x d : A) :
  (i < n)%nat -> nth i (replicate n x) d = x.
Proof. intros H. now rewrite nth_lookup, lookup_replicate_2. Qed.

Lemma sum_replicate_const (n : nat) (f : matrix -> R) (img : matrix) :
  foldr Rplus 0 (map f (replicate n img)) = INR n * f img.
Proof.
  induction n as [|n IH]; [simpl; ring|].
  cbn [replicate map foldr]. rewrite IH, S_INR. ring.
Qed.

(** The mean of copies of one image is that image. *)
Lemma white_mean_replicate (nW : nat) (img : matrix) (s x : nat) :
  (0 < nW)%nat -> white_mean (replicate nW img) s x = entry 0 img s x.
Proof.
  intros HW. unfold white_mean. rewrite sum_replicate_const, length_replicate.
  assert (INR nW <> 0) by (apply not_0_INR; lia). now field.
Qed.

Lemma set_data_same (self : read) : set_data (data self) self = self.
Proof. now destruct self. Qed.

(** Normalizing by white images that are 1 everywhere, with no cutoff,
    leaves the object as it was. *)
Theorem normalize_white_ones (self : read) (nP nW nS nX : nat) :
  rect3 nP nS nX (data self) ->
  white self = replicate nW (replicate nS (replicate nX 1)) ->
  (0 < nP)%nat -> (0 < nW)%nat -> (0 < nS)%nat ->
  normalize None self = Ok self.
Proof.
  intros Hd Hw HP HW HS.
  assert (Hrw : rect3 nW nS nX (white self)).
  { rewrite Hw. split; [apply length_replicate|].
    apply Forall_replicate. split; [apply length_replicate|].
    apply Forall_replicate, length_replicate. }
  rewrite (normalize_run nP nW nS nX (white self) Hrw HW HS None self) by done.
  cbn [apply_cutoff].
  assert (Hmap : map (flat_field (white self) nS nX) (data self) = data self);
    [|rewrite Hmap; now rewrite set_data_same].
  etransitivity; [|apply map_id]. apply map_ext_in. intros plane Hin.
  destruct Hd as [_ Hd]. rewrite Forall_forall in Hd.
  apply list_elem_of_In, Hd in Hin.
  unfold flat_field. etransitivity; [|apply (tabulate2_entry_id nS nX plane Hin)].
  apply tabulate2_ext. intros s x Hs Hx.
  rewrite Hw, white_mean_replicate by done. unfold entry at 2.
  rewrite !nth_replicate_lt by done. lra.
Qed.

Lemma normalize_white_ones_witness :
  normalize None {| data := stack_2x2x2;
                    white := replicate 3 (replicate 2 (replicate 2 1));
                    dark := []; center := 1; angles := None |}
  = Ok {| data := stack_2x2x2;
          white := replicate 3 (replicate 2 (replicate 2 1));
          dark := []; center := 1; angles := None |}.
Proof.
  apply (normalize_white_ones _ 2 3 2 2); try lia; try reflexivity.
  exact stack_2x2x2_rect.
Defined.

(** * [medianFilter] *)

Lemma obind_Done {A B} (f : A -> outcome B) (a : A) : (Done a ≫= f) = f a.
Proof. reflexivity. Qed.

Lemma for_each_o_app {St} (body : nat -> St -> outcome St) (idx1 idx2 : list nat) (s : St) :
  for_each_o body (idx1 ++ idx2) s
  = (s' ← for_each_o body idx1 s; for_each_o body idx2 s').
Proof.
  revert s. induction idx1 as [|i idx1 IH]; intros s; simpl; [reflexivity|].
  destruct (body i s) as [s'|e]; simpl; [apply IH | reflexivity].
Qed.

Lemma for_each_o_snoc {St} (body : nat -> St -> outcome St) (k : nat) (s : St) :
  for_each_o body (seq 0 (S k)) s = (s' ← for_each_o body (seq 0 k) s; body k s').
Proof.
  rewrite seq_S, for_each_o_app. simpl.
  destruct (for_each_o body (seq 0 k) s) as [s'|e]; simpl; [|reflexivity].
  destruct (body k s'); reflexivity.
Qed.

Lemma squeeze_2d (a : matrix) (r c : nat) :
  rect r c a -> (2 <= r)%nat -> (2 <= c)%nat -> squeeze a = Arr2 a.
Proof.
  intros Ha Hr Hc. unfold squeeze. rewrite (rect_shape2 a r c) by (done || lia).
  destruct (Nat.eqb_spec r 1); [lia|]. destruct (Nat.eqb_spec c 1); [lia|]. reflexivity.
Qed.

(** When an extent of the data is 1 the axis given is not looked at, be
    it a valid one or not; when none is, an axis other than 0, 1 and 2
    raises ValueError. *)
Theorem medianFilter_axis_checked (F : Ndimage) (d : stack3) (nP nS nX : nat) :
  shape3 d = (nP, nS, nX) ->
  ((nP = 1 \/ nS = 1 \/ nX = 1)%nat ->
   forall axis axis', medianFilter F axis d = medianFilter F axis' d) /\
  (nP <> 1%nat -> nS <> 1%nat -> nX <> 1%nat ->
   forall axis, axis <> 0%Z -> axis <> 1%Z -> axis <> 2%Z ->
     medianFilter F axis d = Thrown (Builtin ValueError)).
Proof.
  intros Hs. unfold medianFilter, medianFilter_axis. rewrite Hs. split.
  - intros H1 axis axis'.
    destruct (Nat.eqb_spec nP 1); [reflexivity|].
    destruct (Nat.eqb_spec nS 1); [reflexivity|].
    destruct (Nat.eqb_spec nX 1); [reflexivity | lia].
  - intros HP HS HX axis H0 H1 H2.
    destruct (Nat.eqb_spec nP 1); [lia|].
    destruct (Nat.eqb_spec nS 1); [lia|].
    destruct (Nat.eqb_spec nX 1); [lia|].
    destruct (Z.eqb_spec axis 0); [lia|].
    destruct (Z.eqb_spec axis 1); [lia|].
    destruct (Z.eqb_spec axis 2); [lia | reflexivity].
Qed.

Lemma medianFilter_axis_checked_witness :
  shape3 stack_2x2x2 = (2%nat, 2%nat, 2%nat) /\
  medianFilter add_one_filter 5 stack_2x2x2 = Thrown (Builtin ValueError).
Proof.
  split; [reflexivity|].
  apply (medianFilter_axis_checked add_one_filter stack_2x2x2 2 2 2 eq_refl); lia.
Defined.

Section PerSlice.
Variable F : Ndimage.
Hypothesis F_shape : keeps_shape F.
Variables (nP nS nX : nat).
Hypothesis nP_ge : (2 <= nP)%nat.
Hypothesis nX_ge : (2 <= nX)%nat.

Lemma medianFilter_prefix (d : stack3) (k : nat) :
  rect3 nP nS nX d -> (k <= nS)%nat ->
  exists d',
    for_each_o (medianFilter_body F getslice setslice) (seq 0 k) d = Done d' /\
    rect3 nP nS nX d' /\
    (forall m, (m < k)%nat ->
       median_filter F (Arr2 (getslice m d)) = Done (Arr2 (getslice m d'))) /\
    (forall m, (k <= m)%nat -> getslice m d' = getslice m d).
Proof.
  intros Hd. induction k as [|k IH]; intros Hk.
  - exists d. split_and!; try done. intros m Hm. lia.
  - destruct IH as (d1 & Hrun & Hd1 & Hdone & Hrest); [lia|].
    rewrite for_each_o_snoc, Hrun, obind_Done. unfold medianFilter_body.
    assert (Hsl : rect nP nX (getslice k d1)) by (apply (rect_getslice nP nS nX); (done || lia)).
    rewrite (squeeze_2d _ nP nX) by done.
    destruct (F_shape (getslice k d1) nP nX Hsl nP_ge nX_ge) as (b & Hb & Hrb).
    rewrite Hb, obind_Done. cbn [as_2d].
    rewrite (setslice_exact nP nS nX) by (done || lia). cbn [lift_result].
    eexists. split; [reflexivity|]. split_and!.
    + now apply rect3_imap_insert.
    + intros m Hm. destruct (decide (m = k)) as [->|Hne].
      * rewrite (getslice_imap_insert_eq nP nS nX) by (try done; try lia; apply Hrb).
        rewrite <- (Hrest k) by lia. exact Hb.
      * rewrite getslice_imap_insert_ne by done. apply Hdone. lia.
    + intros m Hm. rewrite getslice_imap_insert_ne by lia. apply Hrest. lia.
Qed.

End PerSlice.

(** Along the axis of the slices, on data with no extent below 2 and a
    filter that keeps the shape: the call keeps the shape of the data, and
    every slice of the result is the filtered slice of the data at the
    same index. *)
Theorem medianFilter_slices (F : Ndimage) (nP nS nX : nat) (d : stack3) :
  keeps_shape F -> rect3 nP nS nX d ->
  (2 <= nP)%nat -> (2 <= nS)%nat -> (2 <= nX)%nat ->
  exists d',
    medianFilter F 1 d = Done d' /\
    rect3 nP nS nX d' /\
    forall m, (m < nS)%nat ->
      median_filter F (Arr2 (getslice m d)) = Done (Arr2 (getslice m d')).
Proof.
  intros HF Hd HP HS HX. unfold medianFilter, medianFilter_axis.
  rewrite (shape3_rect nP nS nX) by (done || lia).
  destruct (Nat.eqb_spec nP 1); [lia|].
  destruct (Nat.eqb_spec nS 1); [lia|].
  destruct (Nat.eqb_spec nX 1); [lia|].
  cbn [Z.eqb Pos.eqb].
  destruct (medianFilter_prefix F HF nP nS nX HP HX d nS Hd) as (d' & Hrun & Hd' & Hm & _);
    [lia|].
  exists d'. now split_and!.
Qed.

Lemma add_one_keeps_shape : keeps_shape add_one_filter.
Proof.
  intros a r c Ha _ _. eexists. split; [reflexivity|]. now apply rect_map.
Qed.

Lemma medianFilter_slices_witness :
  exists d',
    medianFilter add_one_filter 1 stack_2x2x2 = Done d' /\
    rect3 2 2 2 d' /\
    forall m, (m < 2)%nat ->
      median_filter add_one_filter (Arr2 (getslice m stack_2x2x2))
      = Done (Arr2 (getslice m d')).
Proof.
  apply (medianFilter_slices add_one_filter 2 2 2 stack_2x2x2 add_one_keeps_shape
           stack_2x2x2_rect); lia.
Defined.

(** * [retrievePhase] *)

Lemma pydiv_zero (x y : R) : y = 0 -> pydiv x y = Thrown ZeroDivisionError.
Proof. intros ->. unfold pydiv. destruct (Req_dec_T 0 0); [reflexivity | contradiction]. Qed.

Lemma pydiv_nonzero (x y : R) : y <> 0 -> pydiv x y = Done (x / y).
Proof. intros H. unfold pydiv. destruct (Req_dec_T y 0); [contradiction | reflexivity]. Qed.

(** An energy or a pixel size of 0, and data with one slice only or one
    pixel only, make [retrievePhase] raise ZeroDivisionError, whatever
    the transform. *)
Theorem retrievePhase_zero_division (K : Constants) (W : Fftw)
    (pixelSize dist energy alpha : R) (self : read) (nP nS nX : nat) :
  shape3 (data self) = (nP, nS, nX) ->
  energy = 0 \/ pixelSize = 0 \/ nS = 1%nat \/ nX = 1%nat ->
  retrievePhase K W pixelSize dist energy alpha self = Thrown ZeroDivisionError.
Proof.
  intros Hs Hz. unfold retrievePhase. rewrite Hs.
  destruct (Req_dec_T energy 0) as [He|He]; [rewrite (pydiv_zero _ energy He); reflexivity|].
  rewrite (pydiv_nonzero _ energy He), obind_Done.
  destruct (Req_dec_T ((INR nS - 1) * pixelSize) 0) as [Hx|Hx];
    [rewrite (pydiv_zero _ _ Hx); reflexivity|].
  rewrite (pydiv_nonzero _ _ Hx), obind_Done.
  rewrite (pydiv_zero _ ((INR nX - 1) * pixelSize)); [reflexivity|].
  destruct Hz as [Hz|[Hz|[Hz|Hz]]]; subst.
  - contradiction.
  - lra.
  - simpl in Hx. lra.
  - simpl. lra.
Qed.

Lemma retrievePhase_zero_division_witness :
  shape3 (data stack_with_white) = (2%nat, 2%nat, 2%nat) /\
  retrievePhase unit_constants identity_fftw 1 1 0 1 stack_with_white
  = Thrown ZeroDivisionError.
Proof.
  split; [reflexivity|].
  apply (retrievePhase_zero_division unit_constants identity_fftw 1 1 0 1
           stack_with_white 2 2 2 eq_refl).
  now left.
Defined.

(** Shifting back undoes shifting. *)
Lemma roll_roll {A} (l : list A) (h : nat) :
  (h <= length l)%nat -> roll (length l - h) (roll h l) = l.
Proof.
  intros Hh. unfold roll at 1. rewrite length_roll. unfold roll.
  replace (length l - (length l - h))%nat with h by lia.
  assert (Hlen : length (drop (length l - h) l) = h) by (rewrite length_drop; lia).
  rewrite drop_app_length' by done. rewrite take_app_length' by done.
  apply take_drop.
Qed.

Lemma map_roll {A B} (f : A -> B) (s : nat) (l : list A) :
  map f (roll s l) = roll s (map f l).
Proof. unfold roll. now rewrite map_app, length_map, skipn_map, firstn_map. Qed.

Lemma ifftshift_fftshift {A} (a : list (list A)) (r c : nat) :
  rect r c a -> (0 < r)%nat -> ifftshift (fftshift a) = a.
Proof.
  intros Ha Hr. unfold ifftshift.
  rewrite (rect_shape2 (fftshift a) r c) by (try done; now apply rect_fftshift).
  unfold fftshift. rewrite (rect_shape2 a r c) by done.
  rewrite map_roll, map_map.
  destruct Ha as [Hlen Hrows].
  assert (Hm : map (fun row => roll (c - c / 2) (roll (c / 2) row)) a = a).
  { etransitivity; [|apply map_id]. apply map_ext_in. intros row Hin.
    rewrite Forall_forall in Hrows. apply list_elem_of_In, Hrows in Hin.
    rewrite <- Hin. apply roll_roll. apply Nat.Div0.div_le_upper_bound; lia. }
  rewrite Hm. rewrite <- Hlen. apply roll_roll. apply Nat.Div0.div_le_upper_bound; lia.
Qed.

Lemma tabulate_entry_id {A} (dflt : A) (r c : nat) (v : list (list A)) :
  rect r c v -> map (fun i => map (fun j => entry dflt v i j) (seq 0 c)) (seq 0 r) = v.
Proof.
  intros [Hr Hc]. unfold entry. subst r.
  etransitivity; [|apply (nth_seq_map_id v [])]. apply map_ext_in. intros i Hi.
  apply in_seq in Hi.
  assert (Hrow : length (nth i v []) = c).
  { rewrite Forall_forall in Hc. apply Hc, list_elem_of_In, nth_In. lia. }
  rewrite <- Hrow. apply nth_seq_map_id.
Qed.

Lemma broadcast_entryC_exact (r c : nat) (v : list (list C)) (i j : nat) :
  rect r c v -> (i < r)%nat -> (j < c)%nat -> broadcast_entryC v i j = entry Czero v i j.
Proof.
  intros Hv Hi Hj. unfold broadcast_entryC. rewrite (rect_shape2 v r c) by (done || lia).
  destruct (Nat.eqb_spec r 1) as [->|_]; destruct (Nat.eqb_spec c 1) as [->|_];
    repeat f_equal; lia.
Qed.

Lemma Cscal_1 (z : C) : Cscal 1 z = z.
Proof. destruct z as [a b]. unfold Cscal. simpl. f_equal; ring. Qed.

(** A filter that is 1 everywhere multiplies to what it is given. *)
Lemma np_multiply_ones (r c : nat) (h : matrix) (f : list (list C)) :
  rect r c h -> rect r c f -> (0 < r)%nat ->
  (forall i j, (i < r)%nat -> (j < c)%nat -> entry 0 h i j = 1) ->
  np_multiply h f = Ok f.
Proof.
  intros Hh Hf Hr Hone. unfold np_multiply.
  rewrite (rect_shape2 h r c), (rect_shape2 f r c) by done.
  rewrite !broadcast_dim_refl. f_equal.
  etransitivity; [|apply (tabulate_entry_id Czero r c f Hf)].
  apply map_ext_in. intros i Hi. apply in_seq in Hi.
  apply map_ext_in. intros j Hj. apply in_seq in Hj.
  rewrite (broadcast_entry_exact r c h), (broadcast_entryC_exact r c f) by (done || lia).
  rewrite Hone by lia. apply Cscal_1.
Qed.

Lemma rect_one_minus (r c : nat) (a : matrix) : rect r c a -> rect r c (one_minus a).
Proof. apply rect_map. Qed.

Lemma length_arange_centered (n : nat) : length (arange_centered n) = n.
Proof. unfold arange_centered. now rewrite length_map, length_seq. Qed.


Section FilterOne.
Variable K : Constants.
Variable W : Fftw.
Variables (nP nS nX : nat).
Hypothesis W_shape : transform_keeps_shape W nS nX.
Hypothesis nS_pos : (0 < nS)%nat.
Variable wavelength : R.
Variable w2 : matrix.
Hypothesis w2_rect : rect nS nX w2.

Lemma retrievePhase_body_filter_one (m : nat) (d : stack3) (plane : matrix) :
  rect3 nP nS nX d -> d !! m = Some (one_minus plane) -> rect nS nX plane ->
  exists out,
    retrievePhase_body K W wavelength 0 1 w2 m d = Done (<[m := out]> d) /\
    rect nS nX out /\ transformed_plane W plane out.
Proof.
  intros Hd Hm Hplane. unfold retrievePhase_body, getplane.
  rewrite nth_lookup, Hm. cbn [default from_option Datatypes.id].
  destruct (W_shape (to_complex (one_minus plane)) forward) as (f & Hfwd & Hf).
  { unfold to_complex. apply rect_map. now apply rect_one_minus. }
  rewrite Hfwd, obind_Done. cbv zeta.
  rewrite (np_multiply_ones nS nX).
  - cbn [lift_result]. rewrite obind_Done.
    rewrite (ifftshift_fftshift f nS nX) by done.
    destruct (W_shape f backward Hf) as (b & Hbwd & Hb).
    rewrite Hbwd, obind_Done.
    assert (Hout : rect nS nX (one_minus (real b))).
    { apply rect_one_minus. unfold real. now apply rect_map. }
    exists (one_minus (real b)). split_and!.
    + rewrite (setplane_exact nP nS nX); try done.
      apply lookup_lt_Some in Hm. destruct Hd as [<- _]. exact Hm.
    + exact Hout.
    + now exists f, b.
  - now apply rect_map.
  - now apply rect_fftshift.
  - done.
  - intros i j Hi Hj. unfold entry.
    destruct w2_rect as [Hr Hc].
    assert (Hrow : length (nth i w2 []) = nX).
    { rewrite Forall_forall in Hc. apply Hc, list_elem_of_In, nth_In. lia. }
    rewrite (nth_map_lt _ _ _ _ []) by lia.
    rewrite (nth_map_lt _ _ _ _ 0) by lia. field_simplify; lra.
Qed.

Lemma retrievePhase_prefix_filter_one (d : stack3) (k : nat) :
  rect3 nP nS nX d -> (k <= nP)%nat ->
  exists res,
    for_each_o (retrievePhase_body K W wavelength 0 1 w2) (seq 0 k) (map one_minus d)
    = Done (res ++ drop k (map one_minus d)) /\
    Forall (rect nS nX) res /\
    Forall2 (transformed_plane W) (take k d) res.
Proof.
  intros Hd. induction k as [|k IH]; intros Hk.
  - exists []. simpl. rewrite drop_0. split_and!; try done; constructor.
  - destruct IH as (res & Hrun & Hres & Hrel); [lia|].
    rewrite for_each_o_snoc, Hrun, obind_Done.
    destruct Hd as [HP Hd].
    destruct (lookup_lt_is_Some_2 d k) as [plane Hplane]; [lia|].
    assert (Hrp : rect nS nX plane).
    { rewrite Forall_forall in Hd. eapply Hd, list_elem_of_lookup_2, Hplane. }
    assert (Hlen : length res = k).
    { apply Forall2_length in Hrel. rewrite length_take in Hrel. lia. }
    assert (Hk1 : map one_minus d !! k = Some (one_minus plane)).
    { rewrite list_lookup_fmap, Hplane. reflexivity. }
    destruct (retrievePhase_body_filter_one k (res ++ drop k (map one_minus d)) plane)
      as (out & Hbody & Hout & Htr).
    + split.
      * rewrite length_app, Hlen, length_drop, length_map. lia.
      * apply Forall_app. split; [exact Hres|].
        apply Forall_drop, Forall_forall. intros p Hp.
        apply list_elem_of_In, in_map_iff in Hp. destruct Hp as (q & <- & Hq).
        apply rect_one_minus. rewrite Forall_forall in Hd.
        now apply Hd, list_elem_of_In.
    + rewrite lookup_app_r by lia. rewrite Hlen, Nat.sub_diag.
      rewrite lookup_drop, Nat.add_0_r. exact Hk1.
    + exact Hrp.
    + exists (res ++ [out]). split_and!.
      * rewrite Hbody. f_equal. rewrite <- app_assoc.
        rewrite (drop_S _ (one_minus plane) k Hk1). simpl.
        rewrite <- Hlen at 1. rewrite insert_app_r_alt by lia.
        rewrite Nat.sub_diag. reflexivity.
      * apply Forall_app. split; [exact Hres | now constructor].
      * rewrite (take_S_r d k plane Hplane). apply Forall2_app; [exact Hrel|].
        now constructor.
Qed.

End FilterOne.

(** With a propagation distance of 0 and [alpha = 1] the filter is 1 at
    every frequency and drops out: for a transform that keeps the shape
    of its input, every projection of the result is 1 minus the real part
    of the backward transform of the forward transform of 1 minus the
    projection, and the shape of the data is kept. *)
Theorem retrievePhase_no_propagation (K : Constants) (W : Fftw)
    (pixelSize energy : R) (self : read) (nP nS nX : nat) :
  rect3 nP nS nX (data self) -> transform_keeps_shape W nS nX ->
  (0 < nP)%nat -> (2 <= nS)%nat -> (2 <= nX)%nat ->
  pixelSize <> 0 -> energy <> 0 ->
  exists d',
    retrievePhase K W pixelSize 0 energy 1 self = Done (set_data d' self) /\
    rect3 nP nS nX d' /\
    Forall2 (transformed_plane W) (data self) d'.
Proof.
  intros Hd HW HP HS HX Hpix Hen. unfold retrievePhase.
  rewrite (shape3_rect nP nS nX) by (done || lia).
  rewrite (pydiv_nonzero _ energy Hen), obind_Done.
  assert (HnS : INR nS - 1 <> 0).
  { assert (2 <= INR nS) by (change 2 with (INR 2); apply le_INR; lia). lra. }
  assert (HnX : INR nX - 1 <> 0).
  { assert (2 <= INR nX) by (change 2 with (INR 2); apply le_INR; lia). lra. }
  rewrite (pydiv_nonzero _ ((INR nS - 1) * pixelSize)), obind_Done
    by (apply Rmult_integral_contrapositive; now split).
  rewrite (pydiv_nonzero _ ((INR nX - 1) * pixelSize)), obind_Done
    by (apply Rmult_integral_contrapositive; now split).
  set (kx := 2 * const_PI K / ((INR nS - 1) * pixelSize)).
  set (ky := 2 * const_PI K / ((INR nX - 1) * pixelSize)).
  set (w2 := map (fun v => map (fun u => u * u + v * v)
                               (map (Rmult ky) (arange_centered nX)))
                 (map (Rmult kx) (arange_centered nS))).
  assert (Hw2 : rect nS nX w2).
  { split.
    - unfold w2. now rewrite !length_map, length_arange_centered.
    - apply Forall_forall. intros row Hin. apply list_elem_of_In, in_map_iff in Hin.
      destruct Hin as (v & <- & _). now rewrite !length_map, length_arange_centered. }
  assert (HS0 : (0 < nS)%nat) by lia.
  destruct (retrievePhase_prefix_filter_one K W nP nS nX HW HS0
              (2 * const_PI K * PLANCK_CONSTANT K * SPEED_OF_LIGHT K / energy)
              w2 Hw2 (data self) nP Hd)
    as (res & Hrun & Hres & Hrel); [lia|].
  rewrite Hrun, obind_Done. destruct Hd as [HP' Hd].
  rewrite <- HP', firstn_all in Hrel.
  rewrite <- HP', <- (length_map one_minus (data self)), drop_all, app_nil_r.
  exists res. split_and!; try done.
  split; [|exact Hres]. apply Forall2_length in Hrel.
  rewrite length_map. now symmetry.
Qed.

Lemma identity_keeps_shape (nS nX : nat) : transform_keeps_shape identity_fftw nS nX.
Proof. intros a dir Ha. exists a. now split. Qed.

Lemma retrievePhase_no_propagation_witness :
  exists d',
    retrievePhase unit_constants identity_fftw 1 0 1 1 stack_with_white
    = Done (set_data d' stack_with_white) /\
    rect3 2 2 2 d' /\
    Forall2 (transformed_plane identity_fftw) (data stack_with_white) d'.
Proof.
  apply (retrievePhase_no_propagation unit_constants identity_fftw 1 1 stack_with_white
           2 2 2 stack_2x2x2_rect (identity_keeps_shape 2 2)); (lia || lra).
Defined.
